(** * Spatial imputation of weekly popularity schedules

    A shallow embedding of [test.py]: the haversine distance, the schedule
    codec ([parse_schedule], [format_schedule_back_to_json]) and the main
    process that fills the places lacking a schedule from their nearest
    neighbours.

    Conventions of the embedding.
    - Python floats and numpy float64 values are the elements of a type [F]
      with the operations of class [PyFloat]; the functions of [math] are
      in class [PyMath].  Nothing is assumed about them: a theorem that
      needs a law of the arithmetic has it as a hypothesis.  The operations
      are total: the OverflowError of [**] and the ValueError of
      [math.sqrt], which distances on the Earth do not reach, are not
      modelled.
    - Code that can raise returns [option]; [None] is the exception.
    - [json.loads] and [json.dumps] are parameters of the codec and of the
      main process; [Rational.loads] and [Rational.dumps] are a reader and
      a printer for the examples.
    - A text is a [string], one character of Python for each of its
      characters.
    - The data frame is the list of its rows; the index label of a row is
      its position, as [pd.read_csv] numbers them.  Reading and writing
      the file are outside the model. *)

From Stdlib Require Import ZArith QArith Reals Lra Lia List String Ascii Bool DecimalString.
From stdpp Require Import base option list gmap strings sorting.

Set Warnings "-register-all,-clear-no-such-hyp".
Local Open Scope Z_scope.
Local Open Scope string_scope.
Local Open Scope list_scope.
Local Open Scope nat_scope.

(** ** Arithmetic *)

(** The float operations the program uses.  [of_int n] is the float of the
    integer [n]; [fpow x n] is [x ** n] for an integer exponent; [fltb x y]
    is [x < y]; [ftrunc] is the conversion [astype(int)]. *)
Class PyFloat (F : Type) := {
  of_int : Z -> F;
  fadd : F -> F -> F;
  fsub : F -> F -> F;
  fmul : F -> F -> F;
  fdiv : F -> F -> F;
  fpow : F -> Z -> F;
  fltb : F -> F -> bool;
  ftrunc : F -> Z
}.

(** The functions of Python's [math] module that [haversine] calls. *)
Class PyMath (F : Type) := {
  radians : F -> F;
  fsin : F -> F;
  fcos : F -> F;
  fsqrt : F -> F;
  fatan2 : F -> F -> F
}.

(** [max(a, b)] of Python: the first argument unless the second is
    strictly greater. *)
Definition pymax `{PyFloat F} (a b : F) : F := if fltb a b then b else a.

(** ** Sorting *)

(** [list.sort] and [sorted] are stable and compare with [<] only.  They
    are modelled by stable insertion: an element is placed after the
    elements strictly below it and before all the others. *)
Fixpoint insert_by {A} (lt : A -> A -> bool) (x : A) (l : list A) : list A :=
  match l with
  | [] => [x]
  | y :: l' => if lt y x then y :: insert_by lt x l' else x :: y :: l'
  end.

Definition sort_by {A} (lt : A -> A -> bool) (l : list A) : list A :=
  foldr (insert_by lt) [] l.

(** ** JSON values *)

(** What [json.loads] returns: [None], a bool, an int, a float, a str, a
    list or a dict (its items in insertion order, each key once). *)
Inductive json {F : Type} : Type :=
| JNull
| JBool (b : bool)
| JInt (z : Z)
| JFloat (f : F)
| JStr (s : string)
| JArr (l : list json)
| JObj (kv : list (string * json)).
Arguments json : clear implicits.

Fixpoint assoc {A} (k : string) (kv : list (string * A)) : option A :=
  match kv with
  | [] => None
  | (k', v) :: kv' => if String.eqb k k' then Some v else assoc k kv'
  end.

(** [x[k]] for a string [k]: defined on a dict that has the key; a missing
    key raises KeyError and any other [x] raises TypeError. *)
Definition getitem {F} (x : json F) (k : string) : option (json F) :=
  match x with
  | JObj kv => assoc k kv
  | _ => None
  end.

(** ** numpy arrays *)

Section Numpy.
Context {F : Type} `{PyFloat F}.

(** An element of a numeric array. *)
Inductive scalar : Type :=
| SBool (b : bool)
| SInt (z : Z)
| SFloat (f : F).

Inductive dtype : Type := DBool | DInt | DFloat.

(** Numeric arrays of one and of two dimensions; the rows of [Arr2] have
    one length and all elements one dtype. *)
Inductive ndarray : Type :=
| Arr1 (v : list scalar)
| Arr2 (rows : list (list scalar)).

(** What [np.array] builds from nested lists: a numeric array of at most
    two dimensions, or any other array (string or object dtype, or three
    dimensions and more), on which the arithmetic of the main loop
    raises.  Integers are taken to fit int64, as hourly values do. *)
Inductive nparray : Type :=
| NumArr (a : ndarray)
| ObjArr.

(** Shape discovery of [np.array]: a list adds a dimension when all its
    elements have one shape; lists of different shapes at one depth raise
    ValueError (numpy 1.24 and later).  Strings and dicts are scalars. *)
Fixpoint dims (v : json F) : option (list nat) :=
  match v with
  | JArr l =>
      match map dims l with
      | [] => Some [0]
      | Some d :: ds =>
          if forallb (fun o => bool_decide (o = Some d)) ds
          then Some (S (length ds) :: d) else None
      | None :: _ => None
      end
  | _ => Some []
  end.

Definition to_scalar (v : json F) : option scalar :=
  match v with
  | JBool b => Some (SBool b)
  | JInt z => Some (SInt z)
  | JFloat f => Some (SFloat f)
  | _ => None
  end.

Definition row_scalars (v : json F) : option (list scalar) :=
  match v with
  | JArr l => mapM to_scalar l
  | _ => None
  end.

Definition is_float (s : scalar) : bool :=
  match s with SFloat _ => true | _ => false end.
Definition is_int (s : scalar) : bool :=
  match s with SInt _ => true | _ => false end.

(** The common dtype: float64 as soon as one element is a float (and for
    no element at all), else int64 as soon as one is an int, else bool. *)
Definition result_type (leaves : list scalar) : dtype :=
  if existsb is_float leaves then DFloat
  else if existsb is_int leaves then DInt
  else match leaves with [] => DFloat | _ => DBool end.

Definition to_float (s : scalar) : F :=
  match s with
  | SBool b => of_int (if b then 1 else 0)%Z
  | SInt z => of_int z
  | SFloat f => f
  end.

Definition to_Z (s : scalar) : Z :=
  match s with
  | SBool b => if b then 1%Z else 0%Z
  | SInt z => z
  | SFloat f => ftrunc f
  end.

Definition cast (dt : dtype) (s : scalar) : scalar :=
  match dt with
  | DBool => s
  | DInt => SInt (to_Z s)
  | DFloat => SFloat (to_float s)
  end.

(** [np.array(matrix)]; [None] is the ValueError of a ragged nesting. *)
Definition np_array (matrix : list (json F)) : option nparray :=
  match dims (JArr matrix) with
  | None => None
  | Some [_] =>
      match mapM to_scalar matrix with
      | Some v => Some (NumArr (Arr1 (map (cast (result_type v)) v)))
      | None => Some ObjArr
      end
  | Some [_; _] =>
      match mapM row_scalars matrix with
      | Some rows =>
          Some (NumArr (Arr2 (map (map (cast (result_type (concat rows)))) rows)))
      | None => Some ObjArr
      end
  | Some _ => Some ObjArr
  end.

Definition scalar_json (s : scalar) : json F :=
  match s with
  | SBool b => JBool b
  | SInt z => JInt z
  | SFloat f => JFloat f
  end.

(** [a[i].tolist()]; [None] is the IndexError of a row that is not
    there. *)
Definition row_tolist (a : ndarray) (i : nat) : option (json F) :=
  match a with
  | Arr1 v => scalar_json <$> v !! i
  | Arr2 rows => (fun r => JArr (map scalar_json r)) <$> rows !! i
  end.

(** [np.zeros((7, 24))]. *)
Definition np_zeros : list (list F) := replicate 7 (replicate 24 (of_int 0)).

(** One axis of numpy's broadcasting against a length [n]: the list as
    it is when it has [n] elements, its element repeated when it has
    one, an error otherwise. *)
Definition broadcast_axis {A} (n : nat) (l : list A) : option (list A) :=
  if length l =? n then Some l
  else match l with
       | [x] => Some (replicate n x)
       | _ => None
       end.

(** [sched * weight], broadcast to the shape (7, 24) of the accumulator;
    [None] is the ValueError of shapes that do not broadcast. *)
Definition scaled (sched : ndarray) (weight : F) : option (list (list F)) :=
  match sched with
  | Arr1 v =>
      r ← broadcast_axis 24 (map (fun s => fmul (to_float s) weight) v);
      Some (replicate 7 r)
  | Arr2 rows =>
      rs ← mapM (fun r => broadcast_axis 24 (map (fun s => fmul (to_float s) weight) r)) rows;
      broadcast_axis 7 rs
  end.

(** [acc += x] on two matrices of one shape. *)
Definition mat_add (acc x : list (list F)) : list (list F) :=
  zip_with (zip_with fadd) acc x.

(** [(m / d).astype(int)]. *)
Definition mat_div_trunc (m : list (list F)) (d : F) : ndarray :=
  Arr2 (map (map (fun x => SInt (ftrunc (fdiv x d)))) m).
End Numpy.
Arguments scalar : clear implicits.
Arguments ndarray : clear implicits.
Arguments nparray : clear implicits.

(** ** The schedule codec *)

Definition days_order : list string :=
  ["Monday"; "Tuesday"; "Wednesday"; "Thursday"; "Friday"; "Saturday"; "Sunday"].

(** [l.index(s)], [None] when [s] is not in [l]. *)
Fixpoint index (s : string) (l : list string) : option nat :=
  match l with
  | [] => None
  | x :: l' => if String.eqb s x then Some 0 else S <$> index s l'
  end.

(** A cell of the column [popular_times]: missing (NaN) or a text. *)
Inductive cell : Type :=
| NaN
| Text (s : string).

Section Codec.
Context {F : Type} `{PyFloat F}.
(** [json.loads] ([None]: it raises) and [json.dumps]. *)
Variable loads : string -> option (json F).
Variable dumps : json F -> string.

(** The sort key of a day entry:
    [days_order.index(x['name']) if x['name'] in days_order else 0]. *)
Definition day_key (x : json F) : option nat :=
  name ← getitem x "name";
  Some (match name with
        | JStr s => default 0 (index s days_order)
        | _ => 0
        end).

(** The body of [parse_schedule] after [json.loads].  Only a list goes
    past the first test: [None], [False], a number, a str or a dict is
    either falsy, or has no [len], or has fewer than 7 elements, or is
    iterated into strings, on which [x['name']] raises. *)
Definition parse_data (data : json F) : option (nparray F) :=
  match data with
  | JArr l =>
      if length l <? 7 then None
      else
        keyed ← mapM (fun x => k ← day_key x; Some (k, x)) l;
        let sorted_data := (sort_by (fun a b => a.1 <? b.1) keyed).*2 in
        matrix ← mapM (fun day => getitem day "data") sorted_data;
        np_array matrix
  | _ => None
  end.

(** [parse_schedule]: every exception is caught and turned into
    [None]; a cell that is not a text makes [json.loads] raise. *)
Definition parse_schedule (c : cell) : option (nparray F) :=
  match c with
  | NaN => None
  | Text s => loads s ≫= parse_data
  end.

(** The list of dicts that [format_schedule_back_to_json] serialises;
    [None] is the IndexError of a matrix of fewer than seven rows. *)
Definition schedule_json (numpy_matrix : ndarray F) : option (json F) :=
  JArr <$> mapM (fun '(i, day_name) =>
                   row ← row_tolist numpy_matrix i;
                   Some (JObj [("name", JStr day_name); ("data", row)]))
                (imap pair days_order).

Definition format_schedule_back_to_json (numpy_matrix : ndarray F) : option string :=
  dumps <$> schedule_json numpy_matrix.
End Codec.

(** ** The distance *)

Section Haversine.
Context {F : Type} `{PyFloat F} `{PyMath F}.

(** Distance in metres between two points given in degrees. *)
Definition haversine (lat1 lon1 lat2 lon2 : F) : F :=
  let R := of_int 6371000 in
  let phi1 := radians lat1 in
  let phi2 := radians lat2 in
  let dphi := radians (fsub lat2 lat1) in
  let dlambda := radians (fsub lon2 lon1) in
  let a := fadd (fpow (fsin (fdiv dphi (of_int 2))) 2)
                (fmul (fmul (fcos phi1) (fcos phi2))
                      (fpow (fsin (fdiv dlambda (of_int 2))) 2)) in
  let c := fmul (of_int 2) (fatan2 (fsqrt a) (fsqrt (fsub (of_int 1) a))) in
  fmul R c.
End Haversine.

(** ** The main process *)

Definition NEIGHBORS_TO_CONSIDER : nat := 3.

(** A row of the data frame; [columns] stands for the columns the process
    does not read (name, google_id, attributes). *)
Record place {F : Type} : Type := Place {
  columns : string;
  latitude : F;
  longitude : F;
  popular_times : cell
}.
Arguments place : clear implicits.
Arguments Place {F}.

(** How a run ends: [exit()] before the loop, an exception out of the loop
    (nothing is saved), or the frame written by [to_csv] with the final
    [count]. *)
Inductive outcome {F : Type} : Type :=
| Exited
| Raised
| Saved (df : list (place F)) (count : nat).
Arguments outcome : clear implicits.

Section Main.
Context {F : Type} `{PyFloat F} `{PyMath F}.
Variable loads : string -> option (json F).
Variable dumps : json F -> string.

(** [len(str(x)) > 20 if pd.notna(x) else False]. *)
Definition has_data (x : cell) : bool :=
  match x with
  | NaN => false
  | Text s => 20 <? String.length s
  end.

(** [df[df['has_data']].copy()] and [df[~df['has_data']].copy()], as the
    lists of (index, row) that [iterrows] yields. *)
Definition sources (df : list (place F)) : list (nat * place F) :=
  filter (fun ir => has_data (popular_times ir.2) = true) (imap pair df).

Definition targets (df : list (place F)) : list (nat * place F) :=
  filter (fun ir => has_data (popular_times ir.2) = false) (imap pair df).

(** The dict of the schedules parsed ahead of the loop. *)
Definition source_schedules (srcs : list (nat * place F)) : gmap nat (nparray F) :=
  foldl (fun m ir =>
           match parse_schedule loads (popular_times ir.2) with
           | Some sched => <[ir.1 := sched]> m
           | None => m
           end) ∅ srcs.

Definition distances (srcs : list (nat * place F)) (target : place F) : list (nat * F) :=
  map (fun ir => (ir.1, haversine (latitude target) (longitude target)
                                  (latitude ir.2) (longitude ir.2))) srcs.

(** [distances.sort(key=lambda x: x[1])] and
    [distances[:NEIGHBORS_TO_CONSIDER]]. *)
Definition by_distance (a b : nat * F) : bool := fltb a.2 b.2.

Definition select (k : nat) (ds : list (nat * F)) : list (nat * F) :=
  take k (sort_by by_distance ds).

Definition nearest_k (srcs : list (nat * place F)) (target : place F) : list (nat * F) :=
  select NEIGHBORS_TO_CONSIDER (distances srcs target).

(** [1 / (max(dist, 50) ** 2)]. *)
Definition weight (dist : F) : F :=
  fdiv (of_int 1) (fpow (pymax dist (of_int 50)) 2).

(** The loop over [nearest_k], from the current [weighted_sum] and
    [total_weight]; [None] is an exception of [sched * weight] or of
    [+=]. *)
Fixpoint accumulate (scheds : gmap nat (nparray F)) (nearest : list (nat * F))
    (weighted_sum : list (list F)) (total_weight : F) : option (list (list F) * F) :=
  match nearest with
  | [] => Some (weighted_sum, total_weight)
  | (s_idx, dist) :: rest =>
      match scheds !! s_idx with
      | Some (NumArr sched) =>
          x ← scaled sched (weight dist);
          accumulate scheds rest (mat_add weighted_sum x) (fadd total_weight (weight dist))
      | Some ObjArr => None
      | None => accumulate scheds rest weighted_sum total_weight
      end
  end.

Definition set_popular_times (v : cell) (r : place F) : place F :=
  Place (columns r) (latitude r) (longitude r) v.

(** The body of the loop over [targets], on the state [(df, count)]. *)
Definition step (srcs : list (nat * place F)) (scheds : gmap nat (nparray F))
    (st : list (place F) * nat) (it : nat * place F) : option (list (place F) * nat) :=
  '(weighted_sum, total_weight) ← accumulate scheds (nearest_k srcs it.2) np_zeros (of_int 0);
  if fltb (of_int 0) total_weight then
    final_json ← format_schedule_back_to_json dumps (mat_div_trunc weighted_sum total_weight);
    Some (alter (set_popular_times (Text final_json)) it.1 st.1, S st.2)
  else Some st.

Fixpoint loop (srcs : list (nat * place F)) (scheds : gmap nat (nparray F))
    (tgts : list (nat * place F)) (st : list (place F) * nat) : option (list (place F) * nat) :=
  match tgts with
  | [] => Some st
  | it :: rest => step srcs scheds st it ≫= loop srcs scheds rest
  end.

Definition main (df : list (place F)) : outcome F :=
  let srcs := sources df in
  let tgts := targets df in
  if length srcs =? 0 then Exited
  else
    match loop srcs (source_schedules srcs) tgts (df, 0) with
    | Some (df', count) => Saved df' count
    | None => Raised
    end.
End Main.

(** ** An instance that computes *)

(** Exact rational arithmetic, every result in lowest terms, and a reader
    and a printer of JSON texts.  The examples and the instances of the
    theorems below are computed with them.

    The rationals have no sine, square root or arc tangent: the instance of
    [PyMath] takes the identity for [fsin], [fsqrt] and [radians], the
    constant 1 for [fcos] and the quotient for [fatan2].  The value of
    [haversine] is then not the great-circle distance; no statement below
    reads it as one. *)
Module Rational.

#[export] Instance Q_float : PyFloat Q := {|
  of_int := inject_Z;
  fadd x y := Qred (Qplus x y);
  fsub x y := Qred (Qminus x y);
  fmul x y := Qred (Qmult x y);
  fdiv x y := Qred (Qdiv x y);
  fpow x n := Qred (Qpower x n);
  fltb x y := negb (Qle_bool y x);
  ftrunc x := Z.quot (Qnum x) (Zpos (Qden x))
|}.

#[export] Instance Q_math : PyMath Q := {|
  radians x := x;
  fsin x := x;
  fcos x := 1%Q;
  fsqrt x := x;
  fatan2 y x := Qred (Qdiv y x)
|}.

(** *** Reading *)

Definition is_quote (c : ascii) : bool := nat_of_ascii c =? 34.

Definition is_ws (c : ascii) : bool :=
  let n := nat_of_ascii c in
  (n =? 32) || (n =? 9) || (n =? 10) || (n =? 13).

Fixpoint skip_ws (s : list ascii) : list ascii :=
  match s with
  | c :: r => if is_ws c then skip_ws r else s
  | [] => []
  end.

Definition digit_of (c : ascii) : option Z :=
  let n := nat_of_ascii c in
  if (48 <=? n) && (n <=? 57) then Some (Z.of_nat (n - 48)) else None.

Definition hex_of (c : ascii) : option nat :=
  let n := nat_of_ascii c in
  if (48 <=? n) && (n <=? 57) then Some (n - 48)
  else if (65 <=? n) && (n <=? 70) then Some (n - 55)
  else if (97 <=? n) && (n <=? 102) then Some (n - 87)
  else None.

(** The digits at the head of [s]: their value appended to [acc], their
    number, and the rest. *)
Fixpoint read_digits (s : list ascii) (acc : Z) (n : nat) : Z * nat * list ascii :=
  match s with
  | c :: r =>
      match digit_of c with
      | Some d => read_digits r (10 * acc + d)%Z (S n)
      | None => (acc, n, s)
      end
  | [] => (acc, n, s)
  end.

(** The integer part: [0], or digits that do not start with [0]. *)
Definition read_int_part (s : list ascii) : option (Z * list ascii) :=
  match s with
  | c :: r =>
      match digit_of c with
      | Some 0%Z => Some (0%Z, r)
      | Some _ => let '(m, _, r') := read_digits s 0 0 in Some (m, r')
      | None => None
      end
  | [] => None
  end.

Definition read_frac (s : list ascii) : option (option (Z * nat) * list ascii) :=
  match s with
  | "."%char :: r =>
      let '(m, n, r') := read_digits r 0 0 in
      if n =? 0 then None else Some (Some (m, n), r')
  | _ => Some (None, s)
  end.

(** An exponent, when a complete one is at the head of [s]. *)
Definition read_exp (s : list ascii) : option (Z * list ascii) :=
  let digits (sign : Z) (r : list ascii) :=
    let '(m, n, r') := read_digits r 0 0 in
    if n =? 0 then None else Some ((sign * m)%Z, r') in
  match s with
  | c :: r =>
      if (nat_of_ascii c =? 101) || (nat_of_ascii c =? 69) then
        match r with
        | "+"%char :: r' => digits 1%Z r'
        | "-"%char :: r' => digits (-1)%Z r'
        | _ => digits 1%Z r
        end
      else None
  | [] => None
  end.

(** A number: an int when it has neither fraction nor exponent, a float
    otherwise.  An exponent that is started and not finished is left
    unread, as the number pattern of [json] does. *)
Definition read_number (s : list ascii) : option (json Q * list ascii) :=
  let '(sign, s1) := match s with "-"%char :: r => ((-1)%Z, r) | _ => (1%Z, s) end in
  '(ip, s2) ← read_int_part s1;
  '(fr, s3) ← read_frac s2;
  let '(ex, s4) := match read_exp s3 with
                   | Some (e, r) => (Some e, r)
                   | None => (None, s3)
                   end in
  match fr, ex with
  | None, None => Some (JInt (sign * ip), s4)
  | _, _ =>
      let '(fm, fn) := default (0%Z, 0) fr in
      let mant := (sign * (ip * 10 ^ Z.of_nat fn + fm))%Z in
      let e := (default 0%Z ex - Z.of_nat fn)%Z in
      Some (JFloat (Qred (Qmult (inject_Z mant) (Qpower (inject_Z 10) e))), s4)
  end.

(** The characters of a string up to its closing quote.  A control
    character is refused; [\uXXXX] is read below 256 only (a character
    of [string] is a byte). *)
Fixpoint read_string (n : nat) (s : list ascii) (acc : list ascii)
    : option (string * list ascii) :=
  match n with
  | 0 => None
  | S n' =>
      match s with
      | [] => None
      | c :: r =>
          if is_quote c then Some (string_of_list_ascii (rev acc), r)
          else if nat_of_ascii c =? 92 then
            match r with
            | e :: r =>
                let simple x := read_string n' r (ascii_of_nat x :: acc) in
                match nat_of_ascii e with
                | 34 => simple 34
                | 92 => simple 92
                | 47 => simple 47
                | 98 => simple 8
                | 102 => simple 12
                | 110 => simple 10
                | 114 => simple 13
                | 116 => simple 9
                | 117 =>
                    match r with
                    | a :: b :: c :: d :: r' =>
                        match hex_of a, hex_of b, hex_of c, hex_of d with
                        | Some 0, Some 0, Some x, Some y =>
                            read_string n' r' (ascii_of_nat (16 * x + y) :: acc)
                        | _, _, _, _ => None
                        end
                    | _ => None
                    end
                | _ => None
                end
            | [] => None
            end
          else if nat_of_ascii c <? 32 then None
          else read_string n' r (c :: acc)
      end
  end.

(** A dict keeps one item per key: a key met again takes the new value
    at its first place. *)
Fixpoint dict_set {A} (k : string) (v : A) (kv : list (string * A)) : list (string * A) :=
  match kv with
  | [] => [(k, v)]
  | (k', v') :: kv' =>
      if String.eqb k k' then (k, v) :: kv' else (k', v') :: dict_set k v kv'
  end.

Section Value.
(** The reader of the values one level down. *)
Variable read : list ascii -> option (json Q * list ascii).

Fixpoint read_elems (n : nat) (s : list ascii) (acc : list (json Q))
    : option (json Q * list ascii) :=
  match n with
  | 0 => None
  | S n' =>
      '(v, r) ← read (skip_ws s);
      match skip_ws r with
      | ","%char :: r' => read_elems n' r' (v :: acc)
      | "]"%char :: r' => Some (JArr (rev (v :: acc)), r')
      | _ => None
      end
  end.

Fixpoint read_members (n : nat) (s : list ascii) (acc : list (string * json Q))
    : option (json Q * list ascii) :=
  match n with
  | 0 => None
  | S n' =>
      match skip_ws s with
      | c :: r0 =>
          if is_quote c then
            '(k, r1) ← read_string (length r0) r0 [];
            match skip_ws r1 with
            | ":"%char :: r2 =>
                '(v, r3) ← read (skip_ws r2);
                match skip_ws r3 with
                | ","%char :: r4 => read_members n' r4 (dict_set k v acc)
                | "}"%char :: r4 => Some (JObj (dict_set k v acc), r4)
                | _ => None
                end
            | _ => None
            end
          else None
      | [] => None
      end
  end.
End Value.

Definition starts_with (p : string) (s : list ascii) : option (list ascii) :=
  let p := list_ascii_of_string p in
  if bool_decide (take (length p) s = p) then Some (drop (length p) s) else None.

(** A value at the head of [s] (no leading white space); [fuel] bounds
    the depth of nesting.  [NaN] and [Infinity], which [json.loads]
    reads as floats, have no rational to stand for them and are not
    read. *)
Fixpoint read_value (fuel : nat) (s : list ascii) : option (json Q * list ascii) :=
  match fuel with
  | 0 => None
  | S fuel' =>
      match s with
      | "["%char :: r =>
          match skip_ws r with
          | "]"%char :: r' => Some (JArr [], r')
          | _ => read_elems (read_value fuel') (length r) r []
          end
      | "{"%char :: r =>
          match skip_ws r with
          | "}"%char :: r' => Some (JObj [], r')
          | _ => read_members (read_value fuel') (length r) r []
          end
      | "n"%char :: _ => r ← starts_with "null" s; Some (JNull, r)
      | "t"%char :: _ => r ← starts_with "true" s; Some (JBool true, r)
      | "f"%char :: _ => r ← starts_with "false" s; Some (JBool false, r)
      | c :: r =>
          if is_quote c
          then '(t, r') ← read_string (length r) r []; Some (JStr t, r')
          else read_number s
      | [] => None
      end
  end.

(** [json.loads] on a text; [None] is JSONDecodeError. *)
Definition loads (s : string) : option (json Q) :=
  let cs := list_ascii_of_string s in
  '(v, r) ← read_value (S (length cs)) (skip_ws cs);
  match skip_ws r with
  | [] => Some v
  | _ => None
  end.
(** *** Printing *)

Definition string_of_Z (z : Z) : string :=
  DecimalString.NilZero.string_of_int (Z.to_int z).

(** The digits of [r / d] after the point, at most [n] of them and at
    least one. *)
Fixpoint frac_digits (n : nat) (r d : Z) : string :=
  match n with
  | 0 => ""
  | S n' =>
      let q := (10 * r / d)%Z in
      let r' := (10 * r mod d)%Z in
      string_of_Z q +:+ (if (r' =? 0)%Z then "" else frac_digits n' r' d)
  end.

(** A float as a decimal: exact when the expansion ends within 17
    digits, cut there otherwise. *)
Definition repr (x : Q) : string :=
  let d := Zpos (Qden x) in
  let n := Z.abs (Qnum x) in
  (if (Qnum x <? 0)%Z then "-" else "")
    +:+ string_of_Z (n / d) +:+ "." +:+ frac_digits 17 (n mod d) d.

Definition hex_digit (n : nat) : ascii :=
  ascii_of_nat (if n <? 10 then 48 + n else 87 + n).

(** [ensure_ascii]: the quote, the backslash and every character outside
    the printable ASCII range are escaped. *)
Definition escape (c : ascii) : string :=
  let n := nat_of_ascii c in
  let esc (e : ascii) := String "\"%char (String e "") in
  match n with
  | 34 => esc (ascii_of_nat 34)
  | 92 => esc "\"%char
  | 10 => esc "n"%char
  | 13 => esc "r"%char
  | 9 => esc "t"%char
  | 8 => esc "b"%char
  | 12 => esc "f"%char
  | _ =>
      if (n <? 32) || (126 <? n)
      then "\u00" +:+ String (hex_digit (n / 16)) (String (hex_digit (n mod 16)) "")
      else String c ""
  end.

Definition quote (s : string) : string :=
  let q := String (ascii_of_nat 34) "" in
  q +:+ String.concat "" (map escape (list_ascii_of_string s)) +:+ q.

(** [json.dumps] with its default separators. *)
Fixpoint dumps (v : json Q) : string :=
  match v with
  | JNull => "null"
  | JBool true => "true"
  | JBool false => "false"
  | JInt z => string_of_Z z
  | JFloat x => repr x
  | JStr s => quote s
  | JArr l => "[" +:+ String.concat ", " (map dumps l) +:+ "]"
  | JObj kv =>
      "{" +:+ String.concat ", "
                (map (fun it => match it with (k, x) => quote k +:+ ": " +:+ dumps x end) kv)
          +:+ "}"
  end.
End Rational.

(** ** Example frames *)

Module Examples.
Import Rational.

(** A JSON text written with apostrophes where it has double quotes. *)
Definition json_text (s : string) : string :=
  string_of_list_ascii
    (map (fun c => if nat_of_ascii c =? 39 then ascii_of_nat 34 else c)
         (list_ascii_of_string s)).

Definition day (name : string) (values : list Z) : json Q :=
  JObj [("name", JStr name); ("data", JArr (map JInt values))].

(** A week with the value [v] at every hour of every day. *)
Definition flat_week (v : Z) : string :=
  dumps (JArr (map (fun name => day name (replicate 24 v)) days_order)).

(** A week whose days come Sunday first, the day of index [i] (Monday
    is 0) holding [i] at every hour. *)
Definition reversed_week : list (json Q) :=
  rev (imap (fun i name => day name (replicate 24 (Z.of_nat i))) days_order).

(** Eight day entries: a full week and Monday once more. *)
Definition eight_days : string :=
  dumps (JArr (map (fun name => day name (replicate 24 1%Z))
                   (days_order ++ ["Monday"]))).

(** Seven day entries of 23 hours each. *)
Definition short_days : string :=
  dumps (JArr (map (fun name => day name (replicate 23 1%Z)) days_order)).

(** A single day entry, in a text of more than 20 characters. *)
Definition one_day : string :=
  json_text "[{'name': 'Monday', 'data': [0, 0, 5, 10]}]".

Definition place_A : place Q := Place "A" 0%Q 0%Q (Text (flat_week 10)).
Definition place_B : place Q := Place "B" 0%Q (2 # 100)%Q (Text (flat_week 20)).
(** A place without data, as the builder of the database writes it. *)
Definition place_T : place Q := Place "T" 0%Q (1 # 100)%Q (Text "[]").
Definition place_U : place Q := Place "U" 0%Q (3 # 100)%Q NaN.
(** A place whose text is a single day entry. *)
Definition place_S : place Q := Place "S" 0%Q 0%Q (Text one_day).
(** A place whose schedule has rows of 23 values. *)
Definition place_R : place Q := Place "R" 0%Q 0%Q (Text short_days).

(** Two sources with schedules and two targets. *)
Definition two_sources : list (place Q) := [place_A; place_T; place_B; place_U].

(** One source whose text does not decode, and one target. *)
Definition no_schedule : list (place Q) := [place_S; place_T].

(** One source whose schedule has short rows, and one target. *)
Definition short_rows : list (place Q) := [place_R; place_T].
End Examples.

(** ** The real numbers as an instance *)

(** The arithmetic that the floats approximate.  [fatan2] follows the case
    analysis of the C function. *)
Module RealModel.
Local Open Scope R_scope.

Definition Rltb (x y : R) : bool := if Rlt_dec x y then true else false.

Definition Rtrunc (x : R) : Z :=
  if Rle_dec 0 x then Int_part x else (- Int_part (- x))%Z.

Definition Ratan2 (y x : R) : R :=
  if Rlt_dec 0 x then atan (y / x)
  else if Rlt_dec x 0 then
    (if Rle_dec 0 y then atan (y / x) + PI else atan (y / x) - PI)
  else if Rlt_dec 0 y then PI / 2
  else if Rlt_dec y 0 then - (PI / 2)
  else 0.

#[export] Instance R_float : PyFloat R := {|
  of_int := IZR;
  fadd := Rplus;
  fsub := Rminus;
  fmul := Rmult;
  fdiv := Rdiv;
  fpow := powerRZ;
  fltb := Rltb;
  ftrunc := Rtrunc
|}.

#[export] Instance R_math : PyMath R := {|
  radians x := x * (PI / 180);
  fsin := sin;
  fcos := cos;
  fsqrt := sqrt;
  fatan2 := Ratan2
|}.
End RealModel.

(** * Vocabulary of the statements *)

Section Order.
Context {A : Type} (lt : A -> A -> bool).

(** [lt] is a strict weak order on the elements of [l]: it is asymmetric
    and being not below is transitive. *)
Definition weak_order_on (l : list A) : Prop :=
  (forall x y, x ∈ l -> y ∈ l -> lt x y = true -> lt y x = false) /\
  (forall x y z, x ∈ l -> y ∈ l -> z ∈ l ->
                 lt x y = false -> lt y z = false -> lt x z = false).

(** No element is below an earlier one. *)
Definition ascending (l : list A) : Prop :=
  StronglySorted (fun a b => lt b a = false) l.

(** [a] and [d] are tied: neither is below the other. *)
Definition tied (d a : A) : Prop := lt a d = false /\ lt d a = false.

#[export] Instance tied_dec d a : Decision (tied d a).
Proof. unfold tied. apply _. Defined.
End Order.

Section Laws.
Context {F : Type} `{PyFloat F} `{PyMath F}.

(** [-x], written with the operations of the class. *)
Definition fneg (x : F) : F := fsub (of_int 0) x.

(** Sign symmetry of the operations under [haversine]: exchanging the
    operands of a difference changes its sign, scaling and sine commute
    with the change of sign, a square forgets it.  The reals satisfy
    these laws; IEEE 754 arithmetic rounds symmetrically and satisfies
    them up to the sign of a zero. *)
Record sign_laws : Prop := {
  law_sub_swap : forall x y, fsub x y = fneg (fsub y x);
  law_radians_neg : forall x, radians (fneg x) = fneg (radians x);
  law_half_neg : forall x, fdiv (fneg x) (of_int 2) = fneg (fdiv x (of_int 2));
  law_sin_neg : forall x, fsin (fneg x) = fneg (fsin x);
  law_square_neg : forall x, fpow (fneg x) 2 = fpow x 2;
  law_mul_comm : forall x y, fmul x y = fmul y x
}.

(** The values of the operations at 0 and 1. *)
Record zero_laws : Prop := {
  law_radians_0 : radians (of_int 0) = of_int 0;
  law_half_0 : fdiv (of_int 0) (of_int 2) = of_int 0;
  law_sin_0 : fsin (of_int 0) = of_int 0;
  law_square_0 : fpow (of_int 0) 2 = of_int 0;
  law_cos_sq_0 : forall x, fmul (fmul (fcos x) (fcos x)) (of_int 0) = of_int 0;
  law_add_0 : fadd (of_int 0) (of_int 0) = of_int 0;
  law_sqrt_0 : fsqrt (of_int 0) = of_int 0;
  law_sub_1_0 : fsub (of_int 1) (of_int 0) = of_int 1;
  law_sqrt_1 : fsqrt (of_int 1) = of_int 1;
  law_atan2_0_1 : fatan2 (of_int 0) (of_int 1) = of_int 0;
  law_int_mul_0 : forall n, (0 <= n)%Z -> fmul (of_int n) (of_int 0) = of_int 0
}.

(** The weight as the specification words it:
    [1 / max(distance, floor)^exponent]. *)
Definition weight_spec (floor : F) (exponent : Z) (distance : F) : F :=
  fdiv (of_int 1) (fpow (pymax distance floor) exponent).
End Laws.
Arguments sign_laws F {_ _}.
Arguments zero_laws F {_ _}.

Section Imputation.
Context {F : Type} `{PyFloat F} `{PyMath F}.
Variable dumps : json F -> string.

(** A decoded schedule: a numeric matrix of 7 rows of 24 values. *)
Definition is_schedule (a : nparray F) : bool :=
  match a with
  | NumArr (Arr2 rows) => (length rows =? 7) && forallb (fun r => length r =? 24) rows
  | _ => false
  end.

(** The value of a schedule at day [i] and hour [j]. *)
Definition entry (a : nparray F) (i j : nat) : F :=
  match a with
  | NumArr (Arr2 rows) => to_float (default (SInt 0) (default [] (rows !! i) !! j))
  | _ => of_int 0
  end.

(** The definitions from here to [schedule_text] follow the words of the
    specification of the aggregation, not the loop of the program. *)

(** The neighbours that contribute, in the order of the selection: those
    whose source has a schedule in the lookup, with their weights. *)
Definition contributions (scheds : gmap nat (nparray F)) (nearest : list (nat * F))
    : list (nparray F * F) :=
  omap (fun c => (fun a => (a, weight c.2)) <$> scheds !! c.1) nearest.

(** The weighted sum of the contributing schedules at one cell, and the
    sum of their weights. *)
Definition weighted_cell (cs : list (nparray F * F)) (i j : nat) : F :=
  foldl (fun acc aw => fadd acc (fmul (entry aw.1 i j) aw.2)) (of_int 0) cs.

Definition weight_total (cs : list (nparray F * F)) : F :=
  foldl (fun acc aw => fadd acc aw.2) (of_int 0) cs.

Definition tabulate {A} (n m : nat) (g : nat -> nat -> A) : list (list A) :=
  map (fun i => map (g i) (seq 0 m)) (seq 0 n).

(** The imputed schedule: at every cell the weighted sum over the total
    weight, cut to an integer. *)
Definition imputed_schedule (cs : list (nparray F * F)) : list (list Z) :=
  tabulate 7 24 (fun i j => ftrunc (fdiv (weighted_cell cs i j) (weight_total cs))).

(** The text of a schedule of integers: the seven days by name, Monday
    first, each with its row. *)
Definition schedule_text (m : list (list Z)) : string :=
  dumps (JArr (zip_with (fun day row => JObj [("name", JStr day);
                                              ("data", JArr (map JInt row))])
                        days_order m)).

(** What the loop does for one target: [Some (Some text)] when it writes
    [text], [Some None] when it passes, [None] when it raises. *)
Definition impute (srcs : list (nat * place F)) (scheds : gmap nat (nparray F))
    (target : place F) : option (option string) :=
  '(weighted_sum, total_weight) ← accumulate scheds (nearest_k srcs target) np_zeros (of_int 0);
  if fltb (of_int 0) total_weight
  then Some <$> format_schedule_back_to_json dumps (mat_div_trunc weighted_sum total_weight)
  else Some None.

(** The row of a target after the loop has dealt with it. *)
Definition imputed_row (srcs : list (nat * place F)) (scheds : gmap nat (nparray F))
    (r : place F) : place F :=
  match impute srcs scheds r with
  | Some (Some text) => set_popular_times (Text text) r
  | _ => r
  end.

(** The frame after the loop has dealt with the target [it]. *)
Definition write_back (srcs : list (nat * place F)) (scheds : gmap nat (nparray F))
    (df : list (place F)) (it : nat * place F) : list (place F) :=
  match impute srcs scheds it.2 with
  | Some (Some text) => alter (set_popular_times (Text text)) it.1 df
  | _ => df
  end.

Definition is_imputed (srcs : list (nat * place F)) (scheds : gmap nat (nparray F))
    (it : nat * place F) : bool :=
  match impute srcs scheds it.2 with
  | Some (Some _) => true
  | _ => false
  end.
End Imputation.

Section Canonical.
Context {F : Type} `{PyFloat F}.

(** The elements have one dtype: the cast to their common dtype leaves
    each of them as it is. *)
Definition uniform (leaves : list (scalar F)) : Prop :=
  Forall (fun s => cast (result_type leaves) s = s) leaves.

(** An array as [np.array] builds them: elements of one dtype, rows of
    one length. *)
Definition canonical (a : ndarray F) : Prop :=
  match a with
  | Arr1 v => uniform v
  | Arr2 rows => uniform (concat rows) /\ exists c, Forall (fun r => length r = c) rows
  end.

(** The number of elements along the first axis. *)
Definition first_axis (a : ndarray F) : nat :=
  match a with
  | Arr1 v => length v
  | Arr2 rows => length rows
  end.

(** [a.tolist()]: the list of the rows of [a], each as a JSON value. *)
Definition tolist (a : ndarray F) : list (json F) :=
  match a with
  | Arr1 v => map scalar_json v
  | Arr2 rows => map (fun r => JArr (map scalar_json r)) rows
  end.

(** The dict of a day in the text of a schedule. *)
Definition day_entry (day : string) (row : json F) : json F :=
  JObj [("name", JStr day); ("data", row)].

(** The list of the seven days, Monday first, each with its row. *)
Definition week_json (rows : list (json F)) : json F :=
  JArr (zip_with day_entry days_order rows).
End Canonical.


(** * The export of the heat map *)

(** [heatmap_builder.py] reads the file that the imputation has written
    and keeps, of every row with a schedule of seven day entries, the
    coordinates and the hourly data.

    A row of [csv.DictReader] is a dict from the names of the columns to
    the fields of the line; a field missing at the end of a short line is
    [None].  [float] on a text and the truth value of a float are
    parameters, as [json.loads] is. *)

(** An element of [heatmap_dataset]. *)
Record heat_entry {F : Type} : Type := HeatEntry {
  lat : F;
  lon : F;
  schedule : list (json F)
}.
Arguments heat_entry : clear implicits.
Arguments HeatEntry {F}.

Section Heatmap.
Context {F : Type}.
(** [json.loads] on a text ([None]: JSONDecodeError, a ValueError). *)
Variable loads : string -> option (json F).
(** [float] on a text ([None]: ValueError). *)
Variable pyfloat : string -> option F.
(** [bool] on a float: false for a zero only. *)
Variable float_truth : F -> bool.

(** The truth value of what [json.loads] returns. *)
Definition truthy (v : json F) : bool :=
  match v with
  | JNull => false
  | JBool b => b
  | JInt z => negb (z =? 0)%Z
  | JFloat f => float_truth f
  | JStr s => negb (String.eqb s "")
  | JArr l => negb (bool_decide (l = []))
  | JObj kv => negb (bool_decide (kv = []))
  end.

(** [len(v)]; [None] is the TypeError of a value without length. *)
Definition pylen (v : json F) : option nat :=
  match v with
  | JStr s => Some (String.length s)
  | JArr l => Some (length l)
  | JObj kv => Some (length kv)
  | _ => None
  end.

(** [[day['data'] for day in pop_times]]; [None] is a KeyError or a
    TypeError.  Iterating a str or a dict gives strs, which have no
    ['data']; the comprehension is only reached with seven elements. *)
Definition day_data (pop_times : json F) : option (list (json F)) :=
  match pop_times with
  | JArr l => mapM (fun day => getitem day "data") l
  | _ => None
  end.

(** What the body of the loop does with one row. *)
Inductive row_outcome : Type :=
| Kept (e : heat_entry F)
| Dropped
| Uncaught.

(** [float(row[column])]: the outcome of the row when it fails, the float
    otherwise.  A column that the file does not have is a KeyError and a
    field that is [None] a TypeError, which the loop does not catch; a
    text that is no float is a ValueError, which it does. *)
Definition float_field (row : list (string * option string)) (column : string)
    : row_outcome + F :=
  match assoc column row with
  | None => inl Uncaught
  | Some None => inl Uncaught
  | Some (Some s) =>
      match pyfloat s with
      | None => inl Dropped
      | Some x => inr x
      end
  end.

(** The body of the loop over the rows.  The dict of the entry is built
    from left to right: the latitude, the longitude, then the schedule. *)
Definition export_row (row : list (string * option string)) : row_outcome :=
  match default (Some "[]") (assoc "popular_times" row) with
  | None => Uncaught
  | Some pop_times_str =>
      match loads pop_times_str with
      | None => Dropped
      | Some pop_times =>
          if truthy pop_times then
            match pylen pop_times with
            | None => Uncaught
            | Some n =>
                if n =? 7 then
                  match float_field row "latitude" with
                  | inl o => o
                  | inr la =>
                      match float_field row "longitude" with
                      | inl o => o
                      | inr lo =>
                          match day_data pop_times with
                          | None => Uncaught
                          | Some sched => Kept (HeatEntry la lo sched)
                          end
                      end
                  end
                else Dropped
            end
          else Dropped
      end
  end.

(** The loop over the rows, from the entries appended so far; [None] is an
    exception that ends the script before it writes its file. *)
Fixpoint export_rows (rows : list (list (string * option string)))
    (heatmap_dataset : list (heat_entry F)) : option (list (heat_entry F)) :=
  match rows with
  | [] => Some heatmap_dataset
  | row :: rest =>
      match export_row row with
      | Kept e => export_rows rest (heatmap_dataset ++ [e])
      | Dropped => export_rows rest heatmap_dataset
      | Uncaught => None
      end
  end.

(** The list that the script dumps. *)
Definition heatmap_dataset (rows : list (list (string * option string)))
    : option (list (heat_entry F)) :=
  export_rows rows [].

(** The entry of a row that is kept. *)
Definition kept_entry (row : list (string * option string)) : option (heat_entry F) :=
  match export_row row with
  | Kept e => Some e
  | _ => None
  end.

(** The row of the export for a record of the frame, as [to_csv] and
    [csv.DictReader] hand it over: the coordinates as texts and the
    schedule, an empty field for a missing one. *)
Definition csv_row (la lo : string) (c : cell) : list (string * option string) :=
  [("latitude", Some la); ("longitude", Some lo);
   ("popular_times", Some (match c with NaN => "" | Text s => s end))].
End Heatmap.

(** * More vocabulary *)

Section Shapes.
Context {F : Type} `{PyFloat F}.

(** A matrix of 7 rows of 24 elements. *)
Definition seven_by_24 {A} (m : list (list A)) : Prop :=
  length m = 7 /\ Forall (fun r => length r = 24) m.

(** The rows of a matrix of integers as JSON lists. *)
Definition int_rows (m : list (list Z)) : list (json F) :=
  map (fun r => JArr (map JInt r)) m.

(** The arrays that broadcast against the accumulator of shape (7, 24):
    the numeric arrays of 24 or of 1 elements, and those of 7 or of 1
    rows of 24 or of 1 elements each. *)
Definition broadcastable (a : nparray F) : bool :=
  let fits (n k : nat) := (k =? n) || (k =? 1) in
  match a with
  | NumArr (Arr1 v) => fits 24 (length v)
  | NumArr (Arr2 rows) =>
      fits 7 (length rows) && forallb (fun r => fits 24 (length r)) rows
  | ObjArr => false
  end.
End Shapes.

(** * More examples *)

Module MoreExamples.
Import Rational Examples.

(** The days of a week, Monday first, the day of index [i] holding [i]
    at every hour; [Examples.reversed_week] is this list reversed. *)
Definition ordered_week : list (json Q) :=
  imap (fun i name => day name (replicate 24 (Z.of_nat i))) days_order.

Definition ordered_rows : list (json Q) :=
  imap (fun i _ => JArr (map JInt (replicate 24 (Z.of_nat i)))) days_order.

(** A week whose days are named in lower case, Sunday first. *)
Definition lower_case_week : list (json Q) :=
  imap (fun i name => day name (replicate 24 (Z.of_nat i)))
       ["sunday"; "saturday"; "friday"; "thursday"; "wednesday"; "tuesday"; "monday"].

(** A week whose Sunday has a name and no data. *)
Definition week_without_sunday : list (json Q) :=
  map (fun name => day name (replicate 24 1%Z))
      ["Monday"; "Tuesday"; "Wednesday"; "Thursday"; "Friday"; "Saturday"]
  ++ [JObj [("name", JStr "Sunday")]].

(** [float] on the texts of the examples: a JSON number. *)
Definition float_of_text (s : string) : option Q :=
  match loads s with
  | Some (JInt z) => Some (inject_Z z)
  | Some (JFloat x) => Some x
  | _ => None
  end.

(** [bool] on a rational. *)
Definition Q_truth (x : Q) : bool := negb (Qeq_bool x 0).

(** The matrix with 19 at every hour of every day. *)
Definition flat_matrix (v : Z) : list (list Z) := replicate 7 (replicate 24 v).
End MoreExamples.

(** * Properties *)

(** ** Stable insertion sort *)

Section Sorting.
Context {A : Type} (lt : A -> A -> bool).

Lemma weak_order_on_sub l l' :
  l' ⊆ l -> weak_order_on lt l -> weak_order_on lt l'.
Proof.
  intros Hsub [Ha Ht]. split.
  - intros x y Hx Hy. apply Ha; auto.
  - intros x y z Hx Hy Hz. apply Ht; auto.
Qed.

Lemma insert_by_perm x l : insert_by lt x l ≡ₚ x :: l.
Proof.
  induction l as [|y l IH]; simpl; [done|].
  destruct (lt y x); [|done].
  rewrite IH. apply Permutation_swap.
Qed.

Lemma sort_by_perm l : sort_by lt l ≡ₚ l.
Proof.
  induction l as [|x l IH]; simpl; [done|].
  unfold sort_by in *. simpl. rewrite insert_by_perm. by rewrite IH.
Qed.

Lemma insert_by_ascending x l :
  weak_order_on lt (x :: l) -> ascending lt l -> ascending lt (insert_by lt x l).
Proof.
  intros Hwo. induction 1 as [|y l Hs IH Hy]; simpl.
  - repeat constructor.
  - destruct Hwo as [Ha Ht].
    assert (Hwo' : weak_order_on lt (x :: l)).
    { apply (weak_order_on_sub (x :: y :: l)); [set_solver|by split]. }
    destruct (lt y x) eqn:Hyx.
    + constructor; [by apply IH|].
      rewrite insert_by_perm. constructor.
      * apply Ha; [set_solver..|done].
      * done.
    + constructor; [by constructor|].
      constructor; [done|].
      rewrite Forall_forall in Hy |- *. intros z Hz.
      apply (Ht z y x); [set_solver..| |done]. by apply Hy.
Qed.

Lemma sort_by_ascending l : weak_order_on lt l -> ascending lt (sort_by lt l).
Proof.
  induction l as [|x l IH]; intros Hwo; [constructor|].
  change (sort_by lt (x :: l)) with (insert_by lt x (sort_by lt l)).
  apply insert_by_ascending.
  - apply (weak_order_on_sub (x :: l)); [|done].
    intros z. rewrite !elem_of_cons, sort_by_perm. done.
  - apply IH. apply (weak_order_on_sub (x :: l)); [set_solver|done].
Qed.

Lemma insert_by_tied d x l :
  weak_order_on lt (d :: x :: l) ->
  filter (tied lt d) (insert_by lt x l) = filter (tied lt d) (x :: l).
Proof.
  intros Hwo. induction l as [|y l IH]; simpl; [done|].
  assert (Hwo' : weak_order_on lt (d :: x :: l)).
  { apply (weak_order_on_sub (d :: x :: y :: l)); [set_solver|done]. }
  destruct (lt y x) eqn:Hyx; [|done].
  rewrite !filter_cons. rewrite filter_cons in IH.
  destruct (decide (tied lt d y)) as [Hy|Hy].
  - destruct (decide (tied lt d x)) as [Hx|Hx].
    + exfalso. destruct Hwo as [_ Ht], Hx as [Hxd Hdx], Hy as [Hyd Hdy].
      rewrite (Ht y d x) in Hyx; [done|set_solver..|done|done].
    + by rewrite IH.
  - by rewrite IH.
Qed.

(** Stability: the elements tied lt with [d] keep their order. *)
Lemma sort_by_stable d l :
  weak_order_on lt (d :: l) -> filter (tied lt d) (sort_by lt l) = filter (tied lt d) l.
Proof.
  induction l as [|x l IH]; intros Hwo; [done|].
  change (sort_by lt (x :: l)) with (insert_by lt x (sort_by lt l)).
  rewrite insert_by_tied.
  - rewrite !filter_cons, IH; [done|].
    apply (weak_order_on_sub (d :: x :: l)); [set_solver|done].
  - apply (weak_order_on_sub (d :: x :: l)); [|done].
    intros z. rewrite !elem_of_cons, sort_by_perm. done.
Qed.

Lemma filter_take_prefix (P : A -> Prop) `{forall a, Decision (P a)} k (l : list A) :
  filter P (take k l) `prefix_of` filter P l.
Proof.
  rewrite <- (take_drop k l) at 2. rewrite filter_app. by apply prefix_app_r.
Qed.

(** In a sorted list nothing after the first [k] elements is below one
    of them. *)
Lemma ascending_take_drop k l :
  ascending lt l -> Forall (fun b => Forall (fun a => lt b a = false) (take k l)) (drop k l).
Proof.
  intros Hs. revert k. induction Hs as [|x l Hs IH Hx]; intros k.
  - rewrite drop_nil. constructor.
  - destruct k as [|k]; simpl.
    + apply Forall_forall. intros; constructor.
    + specialize (IH k). rewrite Forall_forall in IH |- *.
      intros b Hb. constructor; [|by apply IH].
      rewrite Forall_forall in Hx. apply Hx.
      by apply (subseteq_drop k l).
Qed.
End Sorting.

(** ** Neighbour selection *)

Section Selection.
Context {F : Type} `{PyFloat F} `{PyMath F}.

Lemma ascending_take {A} (lt : A -> A -> bool) k (l : list A) :
  ascending lt l -> ascending lt (take k l).
Proof.
  intros Hs. revert k. induction Hs as [|x l Hs IH Hx]; intros [|k]; simpl;
    try constructor; [apply IH|by apply Forall_take].
Qed.

End Selection.

(** ** The weight *)

Section Weight.
Context {F : Type} `{PyFloat F}.

End Weight.

(** ** The distance *)

Section Distance.
Context {F : Type} `{PyFloat F} `{PyMath F}.

End Distance.

(** ** Sources, targets and the lookup of schedules *)

Section Partition.
Context {F : Type} `{PyFloat F} `{PyMath F}.
Variable loads : string -> option (json F).

Lemma has_data_text (c : cell) :
  has_data c = true <-> exists s, c = Text s /\ 20 < String.length s.
Proof.
  destruct c as [|s]; simpl.
  - split; [done|]. by intros (s & ? & _).
  - rewrite Nat.ltb_lt. split; [eauto|]. by intros (s' & [= ->] & ?).
Qed.

Lemma imap_pair_fst (df : list (place F)) : (imap pair df).*1 = seq 0 (length df).
Proof.
  rewrite fmap_imap.
  transitivity ((fun i : nat => i) <$> seq 0 (length df)).
  - rewrite <- (imap_seq_0 df (fun i : nat => i)). by apply imap_ext.
  - apply list_fmap_id.
Qed.

Lemma elem_of_imap_pair (df : list (place F)) ir :
  ir ∈ imap pair df <-> df !! ir.1 = Some ir.2.
Proof.
  rewrite elem_of_lookup_imap. destruct ir as [i r]; simpl. split.
  - by intros (i' & r' & [= -> ->] & ?).
  - intros ?. by exists i, r.
Qed.

Lemma elem_of_sources (df : list (place F)) (ir : nat * place F) :
  ir ∈ sources df <-> df !! ir.1 = Some ir.2 /\ has_data (popular_times ir.2) = true.
Proof. unfold sources. rewrite list_elem_of_filter, elem_of_imap_pair. tauto. Qed.

Lemma elem_of_targets (df : list (place F)) (ir : nat * place F) :
  ir ∈ targets df <-> df !! ir.1 = Some ir.2 /\ has_data (popular_times ir.2) = false.
Proof. unfold targets. rewrite list_elem_of_filter, elem_of_imap_pair. tauto. Qed.

Lemma NoDup_sources (df : list (place F)) : NoDup (sources df).*1.
Proof.
  apply (sublist_NoDup _ (imap pair df).*1).
  - rewrite imap_pair_fst. apply NoDup_seq.
  - apply fmap_sublist, sublist_filter.
Qed.

Lemma NoDup_targets (df : list (place F)) : NoDup (targets df).*1.
Proof.
  apply (sublist_NoDup _ (imap pair df).*1).
  - rewrite imap_pair_fst. apply NoDup_seq.
  - apply fmap_sublist, sublist_filter.
Qed.

Lemma schedules_notin (srcs : list (nat * place F)) (m : gmap nat (nparray F)) i :
  i ∉ srcs.*1 ->
  foldl (fun m ir => match parse_schedule loads (popular_times ir.2) with
                     | Some sched => <[ir.1 := sched]> m
                     | None => m
                     end) m srcs !! i = m !! i.
Proof.
  revert m. induction srcs as [|[i' r'] srcs IH]; intros m Hi; simpl; [done|].
  rewrite fmap_cons, not_elem_of_cons in Hi. destruct Hi as [Hne Hi].
  rewrite IH by done. simpl in *.
  destruct (parse_schedule loads (popular_times r')); [|done].
  by rewrite lookup_insert_ne.
Qed.

Lemma schedules_in (srcs : list (nat * place F)) (m : gmap nat (nparray F)) i r :
  NoDup srcs.*1 -> (i, r) ∈ srcs ->
  foldl (fun m ir => match parse_schedule loads (popular_times ir.2) with
                     | Some sched => <[ir.1 := sched]> m
                     | None => m
                     end) m srcs !! i
  = match parse_schedule loads (popular_times r) with
    | Some sched => Some sched
    | None => m !! i
    end.
Proof.
  revert m. induction srcs as [|[i' r'] srcs IH]; intros m Hnd Hin; simpl.
  - by apply elem_of_nil in Hin.
  - rewrite fmap_cons, NoDup_cons in Hnd. destruct Hnd as [Hi' Hnd].
    apply elem_of_cons in Hin as [[= <- <-]|Hin].
    + rewrite schedules_notin by done. simpl.
      destruct (parse_schedule loads (popular_times r)); [|done].
      by rewrite lookup_insert_eq.
    + rewrite IH by done. simpl in *.
      destruct (parse_schedule loads (popular_times r)); [done|].
      destruct (parse_schedule loads (popular_times r')); [|done].
      rewrite lookup_insert_ne; [done|].
      intros ->. apply Hi'. by apply (list_elem_of_fmap_2 fst _ (i, r)).
Qed.

Lemma source_schedules_source (df : list (place F)) i r :
  (i, r) ∈ sources df ->
  source_schedules loads (sources df) !! i = parse_schedule loads (popular_times r).
Proof.
  intros Hin. unfold source_schedules.
  rewrite (schedules_in _ _ i r) by (apply NoDup_sources || done).
  by destruct (parse_schedule loads (popular_times r)).
Qed.

Lemma source_schedules_target (df : list (place F)) i r :
  (i, r) ∈ targets df -> source_schedules loads (sources df) !! i = None.
Proof.
  intros [Hi Hno]%elem_of_targets. unfold source_schedules.
  rewrite schedules_notin; [done|].
  intros ([i' r'] & -> & [Hi' Hyes]%elem_of_sources)%list_elem_of_fmap.
  simpl in *. congruence.
Qed.

(** C1, as the code has it: a record is a source exactly when its raw
    schedule is present and its text is longer than 20 characters, and a
    target in every other case; the lookup of schedules holds the
    sources whose raw schedule decodes, with the decoded schedule, and
    no target. *)
Theorem partition_by_text_length (df : list (place F)) (i : nat) (r : place F) :
  df !! i = Some r ->
  ((i, r) ∈ sources df <->
     exists s, popular_times r = Text s /\ 20 < String.length s)
  /\ ((i, r) ∈ targets df <->
        ~ exists s, popular_times r = Text s /\ 20 < String.length s)
  /\ ((i, r) ∈ sources df ->
        source_schedules loads (sources df) !! i
        = parse_schedule loads (popular_times r))
  /\ ((i, r) ∈ targets df ->
        source_schedules loads (sources df) !! i = None).
Proof.
  intros Hi. rewrite elem_of_sources, elem_of_targets, <- has_data_text. simpl.
  split; [tauto|]. split; [|split].
  - destruct (has_data (popular_times r)); split; try tauto; try done.
    by intros [_ ?].
  - intros Hin. apply source_schedules_source. by apply elem_of_sources.
  - intros Hin. apply (source_schedules_target df i r). by apply elem_of_targets.
Qed.
End Partition.

(** ** Matrices *)

Section Matrices.
Context {F : Type} `{PyFloat F}.

Lemma is_schedule_inv (a : nparray F) :
  is_schedule a = true ->
  exists rows, a = NumArr (Arr2 rows) /\ length rows = 7
               /\ Forall (fun r => length r = 24) rows.
Proof.
  destruct a as [[v|rows]|]; simpl; try done.
  intros [Hn Hr]%andb_prop. exists rows. split; [done|]. split.
  - by apply Nat.eqb_eq.
  - apply Forall_forall. intros r Hr'.
    rewrite forallb_forall in Hr. apply Nat.eqb_eq, Hr. by apply list_elem_of_In.
Qed.

Lemma broadcast_axis_same {A} n (l : list A) :
  length l = n -> broadcast_axis n l = Some l.
Proof. intros <-. unfold broadcast_axis. by rewrite Nat.eqb_refl. Qed.

Lemma broadcast_axis_length {A} n (l l' : list A) :
  broadcast_axis n l = Some l' -> length l' = n.
Proof.
  unfold broadcast_axis. destruct (length l =? n) eqn:Hl.
  - intros [= <-]. by apply Nat.eqb_eq.
  - destruct l as [|x [|? ?]]; intros [= <-]. by rewrite length_replicate.
Qed.

(** On a schedule [sched * weight] is the matrix of the products. *)
Lemma scaled_schedule rows (w : F) :
  length rows = 7 -> Forall (fun r => length r = 24) rows ->
  scaled (Arr2 rows) w = Some (map (map (fun s => fmul (to_float s) w)) rows).
Proof.
  intros Hn Hr. unfold scaled.
  assert (Hm : mapM (fun r => broadcast_axis 24 (map (fun s => fmul (to_float s) w) r)) rows
               = Some (map (map (fun s => fmul (to_float s) w)) rows)).
  { apply mapM_Some_2. clear Hn. induction Hr as [|r rows Hr24 Hr IH]; constructor; [|done].
    apply broadcast_axis_same. by rewrite length_map. }
  rewrite Hm. simpl. apply broadcast_axis_same. by rewrite length_map.
Qed.

Lemma scaled_rows (a : ndarray F) (w : F) x : scaled a w = Some x -> length x = 7.
Proof.
  destruct a as [v|rows]; simpl.
  - destruct (broadcast_axis 24 _); simpl; [|done].
    by intros [= <-].
  - destruct (mapM _ rows); simpl; [|done]. apply broadcast_axis_length.
Qed.

Lemma accumulate_rows (scheds : gmap nat (nparray F)) nearest ws tw ws' tw' :
  accumulate scheds nearest ws tw = Some (ws', tw') -> length ws = 7 -> length ws' = 7.
Proof.
  revert ws tw. induction nearest as [|[s_idx dist] rest IH]; intros ws tw; simpl.
  - by intros [= <- <-].
  - destruct (scheds !! s_idx) as [[sched|]|]; [|done|by apply IH].
    destruct (scaled sched (weight dist)) as [x|] eqn:Hx; simpl; [|done].
    intros Hacc Hws. apply (IH _ _ Hacc).
    unfold mat_add. rewrite length_zip_with, (scaled_rows _ _ _ Hx). lia.
Qed.

(** The loop over the neighbours comes to its end when every schedule
    it meets is a matrix of 7 rows of 24 values. *)
Lemma accumulate_total (scheds : gmap nat (nparray F)) nearest ws tw :
  (forall c a, c ∈ nearest -> scheds !! c.1 = Some a -> is_schedule a = true) ->
  is_Some (accumulate scheds nearest ws tw).
Proof.
  revert ws tw. induction nearest as [|[s_idx dist] rest IH]; intros ws tw Hok; simpl.
  - done.
  - assert (Hrest : forall c a, c ∈ rest -> scheds !! c.1 = Some a -> is_schedule a = true).
    { intros c a Hc. apply Hok. by right. }
    destruct (scheds !! s_idx) as [a|] eqn:Ha; [|by apply IH].
    destruct (is_schedule_inv a) as (rows & -> & Hn & Hr).
    { apply (Hok (s_idx, dist)); [by left|done]. }
    rewrite scaled_schedule by done. simpl. by apply IH.
Qed.

Lemma np_zeros_rows : length (np_zeros (F := F)) = 7.
Proof. done. Qed.
End Matrices.

Section Format.
Context {F : Type} `{PyFloat F}.
Variable dumps : json F -> string.

Lemma schedule_json_rows (rows : list (list (scalar F))) :
  length rows = 7 -> is_Some (schedule_json (Arr2 rows)).
Proof.
  intros Hn.
  do 7 (destruct rows as [|? rows]; [done|]). destruct rows; [|done].
  by eexists.
Qed.

Lemma format_rows (m : list (list F)) (d : F) :
  length m = 7 ->
  is_Some (format_schedule_back_to_json dumps (mat_div_trunc m d)).
Proof.
  intros Hn. unfold format_schedule_back_to_json, mat_div_trunc.
  destruct (schedule_json_rows (map (map (fun x => SInt (ftrunc (fdiv x d)))) m)) as [doc ->].
  - by rewrite length_map.
  - by eexists.
Qed.
End Format.

(** ** The loop over the targets *)

Section Loop.
Context {F : Type} `{PyFloat F} `{PyMath F}.
Variable loads : string -> option (json F).
Variable dumps : json F -> string.
Variable srcs : list (nat * place F).
Variable scheds : gmap nat (nparray F).

Lemma step_impute (st : list (place F) * nat) (it : nat * place F) :
  step dumps srcs scheds st it
  = match impute dumps srcs scheds it.2 with
    | Some (Some text) => Some (alter (set_popular_times (Text text)) it.1 st.1, S st.2)
    | Some None => Some st
    | None => None
    end.
Proof.
  unfold step, impute.
  destruct (accumulate scheds (nearest_k srcs it.2) np_zeros (of_int 0))
    as [[ws tw]|]; simpl; [|done].
  destruct (fltb (of_int 0) tw); [|done].
  by destruct (format_schedule_back_to_json dumps (mat_div_trunc ws tw)).
Qed.

Lemma step_count (st : list (place F) * nat) (it : nat * place F) st' :
  step dumps srcs scheds st it = Some st' ->
  st' = (write_back dumps srcs scheds st.1 it,
         st.2 + (if is_imputed dumps srcs scheds it then 1 else 0)).
Proof.
  rewrite step_impute. unfold write_back, is_imputed. destruct st as [df c]; simpl.
  destruct (impute dumps srcs scheds it.2) as [[text|]|]; intros [= <-]; f_equal; lia.
Qed.

Lemma loop_inv tgts (st st' : list (place F) * nat) :
  loop dumps srcs scheds tgts st = Some st' ->
  st' = (foldl (write_back dumps srcs scheds) st.1 tgts,
         st.2 + length (filter (fun it => is_imputed dumps srcs scheds it = true) tgts)).
Proof.
  revert st. induction tgts as [|it tgts IH]; intros st; simpl.
  - intros [= <-]. destruct st; simpl. f_equal. lia.
  - destruct (step dumps srcs scheds st it) as [st1|] eqn:Hstep; simpl; [|done].
    intros Hloop. rewrite (IH _ Hloop), (step_count _ _ _ Hstep). simpl.
    f_equal. rewrite filter_cons.
    destruct (is_imputed dumps srcs scheds it); simpl; lia.
Qed.

Lemma loop_total tgts (st : list (place F) * nat) :
  Forall (fun it => is_Some (impute dumps srcs scheds it.2)) tgts ->
  is_Some (loop dumps srcs scheds tgts st).
Proof.
  intros Hall. revert st. induction Hall as [|it tgts [o Ho] Hall IH]; intros st; simpl.
  - done.
  - rewrite step_impute, Ho. destruct o; simpl; apply IH.
Qed.

Lemma length_write_back df tgts :
  length (foldl (write_back dumps srcs scheds) df tgts) = length df.
Proof.
  revert df. induction tgts as [|it tgts IH]; intros df; simpl; [done|].
  rewrite IH. unfold write_back.
  destruct (impute dumps srcs scheds it.2) as [[text|]|]; [|done..].
  apply length_alter.
Qed.

Lemma write_back_notin df tgts i :
  i ∉ tgts.*1 -> foldl (write_back dumps srcs scheds) df tgts !! i = df !! i.
Proof.
  revert df. induction tgts as [|[i' r'] tgts IH]; intros df Hi; simpl; [done|].
  rewrite fmap_cons, not_elem_of_cons in Hi. destruct Hi as [Hne Hi].
  rewrite IH by done. unfold write_back. simpl in *.
  destruct (impute dumps srcs scheds r') as [[text|]|]; [|done..].
  by rewrite list_lookup_alter_ne.
Qed.

Lemma write_back_in df tgts i r :
  NoDup tgts.*1 -> (i, r) ∈ tgts -> df !! i = Some r ->
  foldl (write_back dumps srcs scheds) df tgts !! i
  = Some (imputed_row dumps srcs scheds r).
Proof.
  revert df. induction tgts as [|[i' r'] tgts IH]; intros df Hnd Hin Hi; simpl.
  - by apply elem_of_nil in Hin.
  - rewrite fmap_cons, NoDup_cons in Hnd. destruct Hnd as [Hi' Hnd].
    apply elem_of_cons in Hin as [[= <- <-]|Hin].
    + rewrite write_back_notin by done. unfold write_back, imputed_row. simpl.
      destruct (impute dumps srcs scheds r) as [[text|]|]; [|done..].
      by rewrite list_lookup_alter_eq, Hi.
    + apply IH; [done..|]. unfold write_back. simpl.
      destruct (impute dumps srcs scheds r') as [[text|]|]; [|done..].
      rewrite list_lookup_alter_ne; [done|].
      intros ->. apply Hi'. by apply (list_elem_of_fmap_2 fst _ (i, r)).
Qed.
End Loop.

(** ** The run *)

Section Run.
Context {F : Type} `{PyFloat F} `{PyMath F}.
Variable loads : string -> option (json F).
Variable dumps : json F -> string.

Lemma main_Saved (df df' : list (place F)) count :
  main loads dumps df = Saved df' count ->
  sources df <> []
  /\ loop dumps (sources df) (source_schedules loads (sources df)) (targets df) (df, 0)
     = Some (df', count).
Proof.
  unfold main. destruct (sources df) as [|s srcs] eqn:Hs; simpl; [done|].
  destruct (loop _ _ _ _ _) as [[df1 c1]|]; [|done].
  by intros [= <- <-].
Qed.

Lemma target_not_source (df : list (place F)) i r :
  (i, r) ∈ sources df -> i ∉ (targets df).*1.
Proof.
  intros [Hi Hyes]%elem_of_sources
         ([i' r'] & -> & [Hi' Hno]%elem_of_targets)%list_elem_of_fmap.
  simpl in *. congruence.
Qed.

(** When every selected neighbour fails to contribute the text of the
    target is not written. *)
Lemma impute_pass srcs (scheds : gmap nat (nparray F)) (r : place F) ws tw :
  accumulate scheds (nearest_k srcs r) np_zeros (of_int 0) = Some (ws, tw) ->
  fltb (of_int 0) tw = false ->
  impute dumps srcs scheds r = Some None.
Proof. intros Hacc Htw. unfold impute. rewrite Hacc. simpl. by rewrite Htw. Qed.

Lemma impute_total srcs (scheds : gmap nat (nparray F)) (r : place F) :
  (forall i a, scheds !! i = Some a -> is_schedule a = true) ->
  is_Some (impute dumps srcs scheds r).
Proof.
  intros Hok. unfold impute.
  destruct (accumulate_total scheds (nearest_k srcs r) np_zeros (of_int 0))
    as [[ws tw] Hacc]; [by eauto|].
  rewrite Hacc. simpl. destruct (fltb (of_int 0) tw); [|by eexists].
  destruct (format_rows dumps ws tw) as [text ->]; [|by eexists].
  by apply (accumulate_rows _ _ _ _ _ _ Hacc).
Qed.

(** C4, as the code has it: a run with no source ends at once, before
    the loop and without saving; in a run that saves, a target for which
    the total weight is not positive keeps its record as it was, and the
    one counter of the run is the number of the targets that were
    imputed: no counter is kept of the targets passed over. *)
Theorem skipped_target_unmodified (df : list (place F)) :
  (sources df = [] -> main loads dumps df = Exited)
  /\ (forall df' count,
        main loads dumps df = Saved df' count ->
        count = length (filter (fun it =>
                  is_imputed dumps (sources df)
                             (source_schedules loads (sources df)) it = true)
                  (targets df))
        /\ forall i r ws tw,
             (i, r) ∈ targets df ->
             accumulate (source_schedules loads (sources df))
                        (nearest_k (sources df) r) np_zeros (of_int 0) = Some (ws, tw) ->
             fltb (of_int 0) tw = false ->
             df' !! i = Some r).
Proof.
  split.
  - intros Hs. unfold main. by rewrite Hs.
  - intros df' count [_ Hloop]%main_Saved.
    apply loop_inv in Hloop. injection Hloop as -> ->. split; [done|].
    intros i r ws tw Hin Hacc Htw. simpl.
    rewrite (write_back_in dumps _ _ df _ i r); [|apply NoDup_targets|done|].
    + unfold imputed_row. by rewrite (impute_pass _ _ _ _ _ Hacc Htw).
    + by apply elem_of_targets in Hin as [? _].
Qed.


(** C6: in a run that saves, the frame keeps its length, every source
    record is as it was, and the record of every target is what one
    pass over it gives from the sources of the frame as it was read and
    from the schedules decoded ahead of the loop; of a record only the
    schedule changes. *)
Theorem sources_read_only (df df' : list (place F)) (count : nat) :
  main loads dumps df = Saved df' count ->
  length df' = length df
  /\ (forall i r, (i, r) ∈ sources df -> df' !! i = Some r)
  /\ (forall i r, (i, r) ∈ targets df ->
        df' !! i = Some (imputed_row dumps (sources df)
                                     (source_schedules loads (sources df)) r))
  /\ (forall i r r', df !! i = Some r -> df' !! i = Some r' ->
        columns r' = columns r /\ latitude r' = latitude r
        /\ longitude r' = longitude r).
Proof.
  intros [_ Hloop]%main_Saved.
  apply loop_inv in Hloop. injection Hloop as -> _. simpl.
  assert (Hsrc : forall i r, (i, r) ∈ sources df ->
            foldl (write_back dumps (sources df) (source_schedules loads (sources df)))
                  df (targets df) !! i = Some r).
  { intros i r Hin. rewrite write_back_notin by (by apply (target_not_source df i r)).
    by apply elem_of_sources in Hin as [? _]. }
  assert (Htgt : forall i r, (i, r) ∈ targets df ->
            foldl (write_back dumps (sources df) (source_schedules loads (sources df)))
                  df (targets df) !! i
            = Some (imputed_row dumps (sources df)
                                (source_schedules loads (sources df)) r)).
  { intros i r Hin. apply write_back_in; [apply NoDup_targets|done|].
    by apply elem_of_targets in Hin as [? _]. }
  split; [apply length_write_back|]. split; [done|]. split; [done|].
  intros i r r' Hi Hi'.
  destruct (has_data (popular_times r)) eqn:Hd.
  - rewrite (Hsrc i r) in Hi'; [by injection Hi' as <-|].
    by apply elem_of_sources.
  - rewrite (Htgt i r) in Hi'; [|by apply elem_of_targets].
    injection Hi' as <-. unfold imputed_row.
    by destruct (impute _ _ _ r) as [[text|]|].
Qed.
End Run.

(** ** The weighted average *)

Section Average.
Context {F : Type} `{PyFloat F} `{PyMath F}.
Variable dumps : json F -> string.

Lemma tabulate_rows {A B} (f : A -> B) (d : A) (rows : list (list A)) n m :
  length rows = n -> Forall (fun r => length r = m) rows ->
  map (map f) rows
  = tabulate n m (fun i j => f (default d (default [] (rows !! i) !! j))).
Proof.
  intros Hn Hm. unfold tabulate. apply list_eq. intros i.
  rewrite !list_lookup_fmap.
  destruct (decide (i < n)) as [Hi|Hi].
  - rewrite (lookup_seq_lt 0 n i Hi). simpl.
    destruct (lookup_lt_is_Some_2 rows i) as [r Hr]; [lia|].
    rewrite Hr. simpl. f_equal.
    assert (Hlen : length r = m).
    { rewrite Forall_forall in Hm. apply Hm. by eapply list_elem_of_lookup_2. }
    apply list_eq. intros j. rewrite !list_lookup_fmap.
    destruct (decide (j < m)) as [Hj|Hj].
    + rewrite (lookup_seq_lt 0 m j Hj). simpl.
      destruct (lookup_lt_is_Some_2 r j) as [x Hx]; [lia|]. by rewrite Hx.
    + rewrite (lookup_ge_None_2 r) by lia.
      by rewrite (lookup_ge_None_2 (seq 0 m)) by (rewrite length_seq; lia).
  - rewrite (lookup_ge_None_2 rows) by lia.
    by rewrite (lookup_ge_None_2 (seq 0 n)) by (rewrite length_seq; lia).
Qed.

Lemma mat_add_tabulate (g h : nat -> nat -> F) :
  mat_add (tabulate 7 24 g) (tabulate 7 24 h)
  = tabulate 7 24 (fun i j => fadd (g i j) (h i j)).
Proof. reflexivity. Qed.

Lemma contributions_cons_Some (scheds : gmap nat (nparray F)) c a rest :
  scheds !! c.1 = Some a ->
  contributions scheds (c :: rest) = (a, weight c.2) :: contributions scheds rest.
Proof. intros Ha. unfold contributions. simpl. by rewrite Ha. Qed.

Lemma contributions_cons_None (scheds : gmap nat (nparray F)) c rest :
  scheds !! c.1 = None ->
  contributions scheds (c :: rest) = contributions scheds rest.
Proof. intros Ha. unfold contributions. simpl. by rewrite Ha. Qed.

Lemma accumulate_cons_schedule (scheds : gmap nat (nparray F)) s_idx dist rest rows ws tw :
  scheds !! s_idx = Some (NumArr (Arr2 rows)) ->
  length rows = 7 -> Forall (fun r => length r = 24) rows ->
  accumulate scheds ((s_idx, dist) :: rest) ws tw
  = accumulate scheds rest
      (mat_add ws (map (map (fun s => fmul (to_float s) (weight dist))) rows))
      (fadd tw (weight dist)).
Proof. intros Ha Hn Hr. simpl. by rewrite Ha, scaled_schedule. Qed.

Lemma accumulate_cons_None (scheds : gmap nat (nparray F)) s_idx dist rest ws tw :
  scheds !! s_idx = None ->
  accumulate scheds ((s_idx, dist) :: rest) ws tw = accumulate scheds rest ws tw.
Proof. intros Ha. simpl. by rewrite Ha. Qed.

(** The loop over the neighbours adds, cell by cell, the weighted
    schedules of the contributing neighbours and, to the total, their
    weights; the other neighbours change neither. *)
Lemma accumulate_tabulate (scheds : gmap nat (nparray F)) nearest g tw :
  (forall c a, c ∈ nearest -> scheds !! c.1 = Some a -> is_schedule a = true) ->
  accumulate scheds nearest (tabulate 7 24 g) tw
  = Some (tabulate 7 24 (fun i j =>
            foldl (fun acc aw => fadd acc (fmul (entry aw.1 i j) aw.2)) (g i j)
                  (contributions scheds nearest)),
          foldl (fun acc aw => fadd acc aw.2) tw (contributions scheds nearest)).
Proof.
  revert g tw. induction nearest as [|[s_idx dist] rest IH]; intros g tw Hok.
  - done.
  - assert (Hrest : forall c a, c ∈ rest -> scheds !! c.1 = Some a -> is_schedule a = true).
    { intros c a Hc. apply Hok. by right. }
    destruct (scheds !! s_idx) as [a|] eqn:Ha.
    + destruct (is_schedule_inv a) as (rows & -> & Hn & Hr).
      { apply (Hok (s_idx, dist)); [by left|done]. }
      rewrite (accumulate_cons_schedule scheds s_idx dist rest rows) by done.
      rewrite (tabulate_rows _ (SInt 0) rows 7 24) by done.
      rewrite mat_add_tabulate, IH by done.
      by rewrite (contributions_cons_Some scheds (s_idx, dist) (NumArr (Arr2 rows))).
    + rewrite accumulate_cons_None, IH by done.
      by rewrite (contributions_cons_None scheds (s_idx, dist)).
Qed.

Lemma format_tabulate (g : nat -> nat -> F) (tw : F) :
  format_schedule_back_to_json dumps (mat_div_trunc (tabulate 7 24 g) tw)
  = Some (schedule_text dumps (tabulate 7 24 (fun i j => ftrunc (fdiv (g i j) tw)))).
Proof. reflexivity. Qed.

(** A sum of positive weights, from zero, is positive. *)
Lemma weight_total_positive (cs : list (nparray F * F)) :
  (forall x y : F, x = of_int 0 \/ fltb (of_int 0) x = true ->
                   fltb (of_int 0) y = true -> fltb (of_int 0) (fadd x y) = true) ->
  Forall (fun aw => fltb (of_int 0) aw.2 = true) cs ->
  cs <> [] -> fltb (of_int 0) (weight_total cs) = true.
Proof.
  intros Hadd Hpos Hne. unfold weight_total.
  destruct Hpos as [|aw cs Haw Hpos]; [done|]. simpl.
  assert (Hx : fltb (of_int 0) (fadd (of_int 0) aw.2) = true) by (apply Hadd; auto).
  clear Hne Haw. revert Hx. generalize (fadd (of_int 0) aw.2).
  induction Hpos as [|aw' cs Haw' Hpos IH]; intros x Hx; simpl; [done|].
  apply IH, Hadd; auto.
Qed.

End Average.

(** ** The codec *)

Section Arrays.
Context {F : Type} `{PyFloat F}.

Lemma cast_cast dt (s : scalar F) : cast dt (cast dt s) = cast dt s.
Proof. by destruct dt. Qed.

Lemma existsb_map_const {A B} (p : B -> bool) (f : A -> B) (b : bool) (l : list A) :
  (forall x, p (f x) = b) -> existsb p (map f l) = b && negb (bool_decide (l = [])).
Proof.
  intros Hp. induction l as [|x l IH]; simpl; [by destruct b|].
  rewrite Hp, IH. by destruct b.
Qed.

Lemma result_type_cast (leaves : list (scalar F)) :
  result_type (map (cast (result_type leaves)) leaves) = result_type leaves.
Proof.
  destruct leaves as [|s leaves]; [done|].
  destruct (existsb is_float (s :: leaves)) eqn:Hf.
  - assert (result_type (s :: leaves) = DFloat) as ->
      by (unfold result_type; by rewrite Hf).
    unfold result_type.
    by rewrite (existsb_map_const is_float (cast DFloat) true).
  - destruct (existsb is_int (s :: leaves)) eqn:Hi.
    + assert (result_type (s :: leaves) = DInt) as ->
        by (unfold result_type; by rewrite Hf, Hi).
      unfold result_type.
      rewrite (existsb_map_const is_float (cast DInt) false) by done.
      by rewrite (existsb_map_const is_int (cast DInt) true).
    + assert (result_type (s :: leaves) = DBool) as ->
        by (unfold result_type; by rewrite Hf, Hi).
      change (map (cast DBool) (s :: leaves)) with (map (fun x : scalar F => x) (s :: leaves)).
      rewrite map_id. unfold result_type. by rewrite Hf, Hi.
Qed.

Lemma uniform_cast (leaves : list (scalar F)) :
  uniform (map (cast (result_type leaves)) leaves).
Proof.
  unfold uniform. rewrite result_type_cast.
  apply Forall_forall. intros s (s' & -> & _)%list_elem_of_fmap. apply cast_cast.
Qed.

Lemma dims_scalar (s : scalar F) : dims (scalar_json s) = Some [].
Proof. by destruct s. Qed.

Lemma dims_cons (x : json F) (l : list (json F)) :
  dims (JArr (x :: l))
  = match dims x with
    | Some d =>
        if forallb (fun o => bool_decide (o = Some d)) (map dims l)
        then Some (S (length (map dims l)) :: d) else None
    | None => None
    end.
Proof. done. Qed.

Lemma dims_row (r : list (scalar F)) :
  dims (JArr (map scalar_json r)) = Some [length r].
Proof.
  destruct r as [|s r]; [done|]. simpl. rewrite dims_scalar.
  assert (Hall : forallb (fun o => bool_decide (o = Some []))
                         (map dims (map scalar_json r)) = true).
  { induction r as [|s' r IH]; [done|]. simpl. by rewrite dims_scalar, IH. }
  by rewrite Hall, !length_map.
Qed.

Lemma to_scalar_json (s : scalar F) : to_scalar (scalar_json s) = Some s.
Proof. by destruct s. Qed.

Lemma mapM_to_scalar_json (r : list (scalar F)) :
  mapM to_scalar (map scalar_json r) = Some r.
Proof.
  apply mapM_Some_2. induction r; constructor; [apply to_scalar_json|done].
Qed.

Lemma map_cast_uniform dt (leaves : list (scalar F)) :
  Forall (fun s => cast dt s = s) leaves -> map (cast dt) leaves = leaves.
Proof. induction 1; simpl; congruence. Qed.

(** [np.array] of the lists of an array is the array. *)
Lemma np_array_tolist_1 (v : list (scalar F)) :
  uniform v -> np_array (map scalar_json v) = Some (NumArr (Arr1 v)).
Proof.
  intros Hu. unfold np_array. rewrite dims_row, mapM_to_scalar_json.
  by rewrite map_cast_uniform.
Qed.

Lemma np_array_tolist_2 (rows : list (list (scalar F))) c :
  rows <> [] -> uniform (concat rows) -> Forall (fun r => length r = c) rows ->
  np_array (map (fun r => JArr (map scalar_json r)) rows) = Some (NumArr (Arr2 rows)).
Proof.
  intros Hne Hu Hc. unfold np_array.
  assert (Hd : dims (JArr (map (fun r => JArr (map scalar_json r)) rows))
               = Some [length rows; c]).
  { destruct Hc as [|r rows Hr Hc]; [done|].
    change (dims (JArr (JArr (map scalar_json r)
                          :: map (fun r => JArr (map scalar_json r)) rows))
            = Some [length (r :: rows); c]).
    rewrite dims_cons, dims_row, Hr.
    assert (Hall : forallb (fun o => bool_decide (o = Some [c]))
              (map dims (map (fun r => JArr (map scalar_json r)) rows)) = true).
    { clear Hne Hu. induction Hc as [|r' rows Hr' Hc IH]; [done|].
      cbn [map forallb]. rewrite dims_row, Hr', IH.
      by rewrite bool_decide_eq_true_2. }
    by rewrite Hall, !length_map. }
  rewrite Hd.
  assert (Hm : mapM row_scalars (map (fun r => JArr (map scalar_json r)) rows) = Some rows).
  { apply mapM_Some_2. clear. induction rows; constructor; [|done].
    apply mapM_to_scalar_json. }
  rewrite Hm. do 3 f_equal.
  unfold uniform in Hu. revert Hu. generalize (result_type (concat rows)).
  intros dt Hu. clear -Hu. induction rows as [|r rows IH]; [done|].
  simpl in *. apply Forall_app in Hu as [Hr Hrows].
  by rewrite map_cast_uniform, IH.
Qed.

Lemma dims_elements (l : list (json F)) n d :
  dims (JArr l) = Some (n :: d) ->
  n = length l /\ Forall (fun x => dims x = Some d) l.
Proof.
  simpl. destruct l as [|x l]; simpl.
  - intros [= <- <-]. by split.
  - destruct (dims x) as [dx|] eqn:Hx; [|done].
    destruct (forallb _ _) eqn:Hall; [|done].
    intros [= <- <-]. rewrite length_map. split; [done|].
    constructor; [done|]. rewrite forallb_forall in Hall.
    apply Forall_forall. intros y Hy.
    specialize (Hall (dims y)). rewrite bool_decide_eq_true in Hall.
    apply Hall, in_map. by apply list_elem_of_In.
Qed.

(** What [np.array] returns is canonical, and as long as the list it
    was given. *)
Lemma np_array_canonical (matrix : list (json F)) (a : ndarray F) :
  np_array matrix = Some (NumArr a) ->
  canonical a /\ first_axis a = length matrix.
Proof.
  unfold np_array. destruct (dims (JArr matrix)) as [[|n [|c [|? ?]]]|] eqn:Hd; try done.
  - destruct (mapM to_scalar matrix) as [v|] eqn:Hv; [|done].
    intros [= <-]. simpl. split; [apply uniform_cast|].
    rewrite length_map. symmetry. by apply (length_mapM _ _ _ Hv).
  - destruct (mapM row_scalars matrix) as [rows|] eqn:Hrows; [|done].
    intros [= <-]. simpl. split; [split|].
    + replace (concat (map (map (cast (result_type (concat rows)))) rows))
        with (map (cast (result_type (concat rows))) (concat rows)).
      * apply uniform_cast.
      * generalize (result_type (concat rows)). intros dt. clear.
        induction rows as [|r rows IH]; [done|]. simpl. by rewrite map_app, IH.
    + exists c. apply dims_elements in Hd as [_ Hd].
      apply mapM_Some in Hrows.
      apply Forall_forall. intros r' (r & -> & Hr)%list_elem_of_fmap.
      rewrite length_map.
      induction Hrows as [|x r0 matrix rows Hx Hrows IH]; [by apply elem_of_nil in Hr|].
      apply Forall_cons in Hd as [Hdx Hd].
      apply elem_of_cons in Hr as [->|Hr]; [|by apply IH].
      destruct x as [| | | | |lx|]; try done. simpl in Hx.
      apply length_mapM in Hx. rewrite <- Hx.
      apply dims_elements in Hdx as [Hc _]. done.
    + rewrite length_map. symmetry. by apply (length_mapM _ _ _ Hrows).
Qed.
End Arrays.

Section Roundtrip.
Context {F : Type} `{PyFloat F}.
Variable loads : string -> option (json F).
Variable dumps : json F -> string.

(** The decoder gives no schedule for a missing cell, for a text that
    [json.loads] refuses, for a value that is not a list and for a list
    of fewer than seven elements. *)
Lemma parse_schedule_fails_soft :
  parse_schedule loads NaN = None
  /\ (forall s, loads s = None -> parse_schedule loads (Text s) = None)
  /\ (forall s d, loads s = Some d -> (forall l, d <> JArr l) ->
                  parse_schedule loads (Text s) = None)
  /\ (forall s l, loads s = Some (JArr l) -> length l < 7 ->
                  parse_schedule loads (Text s) = None).
Proof.
  split; [done|]. split; [|split].
  - intros s Hs. simpl. by rewrite Hs.
  - intros s d Hs Hd. simpl. rewrite Hs. simpl.
    destruct d; try done. by destruct (Hd l).
  - intros s l Hs Hl. simpl. rewrite Hs. simpl.
    apply Nat.ltb_lt in Hl. by rewrite Hl.
Qed.

Lemma parse_data_canonical (l : list (json F)) (a : ndarray F) :
  parse_data (JArr l) = Some (NumArr a) ->
  canonical a /\ first_axis a = length l.
Proof.
  unfold parse_data. destruct (length l <? 7); [done|].
  destruct (mapM _ l) as [keyed|] eqn:Hk; simpl; [|done].
  destruct (mapM (fun day => getitem day "data") _) as [matrix|] eqn:Hm; simpl; [|done].
  intros [Hc Hlen]%np_array_canonical. split; [done|].
  rewrite Hlen, <- (length_mapM _ _ _ Hm), length_fmap.
  rewrite sort_by_perm. symmetry. apply (length_mapM _ _ _ Hk).
Qed.

Lemma tolist_length (a : ndarray F) : length (tolist a) = first_axis a.
Proof. destruct a; simpl; by rewrite length_map. Qed.

Lemma tolist_lookup (a : ndarray F) i : tolist a !! i = row_tolist a i.
Proof. destruct a; simpl; by rewrite list_lookup_fmap. Qed.

(** On an array of seven rows the encoder gives the week of its rows. *)
Lemma schedule_json_week (a : ndarray F) :
  first_axis a = 7 -> schedule_json a = Some (week_json (tolist a)).
Proof.
  intros Hn. destruct a as [v|rows]; simpl in Hn.
  - do 7 (destruct v as [|? v]; [done|]). by destruct v.
  - do 7 (destruct rows as [|? rows]; [done|]). by destruct rows.
Qed.

(** The decoder reads the rows of a week in their order. *)
Lemma parse_data_week (rows : list (json F)) :
  length rows = 7 -> parse_data (week_json rows) = np_array rows.
Proof.
  intros Hn. do 7 (destruct rows as [|? rows]; [done|]). by destruct rows.
Qed.

Lemma np_array_tolist (a : ndarray F) :
  canonical a -> first_axis a <> 0 -> np_array (tolist a) = Some (NumArr a).
Proof.
  destruct a as [v|rows]; simpl.
  - intros Hu _. by apply np_array_tolist_1.
  - intros [Hu [c Hc]] Hn. apply (np_array_tolist_2 rows c); [|done..].
    by destruct rows.
Qed.

(** C10: for a raw schedule of seven day entries that decodes to a
    numeric array, whose encoded text [json.loads] reads back as
    [json.dumps] wrote it, the encoder gives the text of the seven days
    by name, Monday first, each with its row of the array, and decoding
    that text gives the same array again. *)
Theorem decode_encode_decode (raw : string) (l : list (json F)) (a : ndarray F) :
  loads raw = Some (JArr l) ->
  length l = 7 ->
  parse_schedule loads (Text raw) = Some (NumArr a) ->
  loads (dumps (week_json (tolist a))) = Some (week_json (tolist a)) ->
  format_schedule_back_to_json dumps a = Some (dumps (week_json (tolist a)))
  /\ length (tolist a) = 7
  /\ parse_schedule loads (Text (dumps (week_json (tolist a)))) = Some (NumArr a).
Proof.
  intros Hraw Hl Hparse Hback. simpl in Hparse. rewrite Hraw in Hparse. simpl in Hparse.
  apply parse_data_canonical in Hparse as [Hc Hn]. rewrite Hl in Hn.
  split; [|split].
  - unfold format_schedule_back_to_json. by rewrite schedule_json_week.
  - by rewrite tolist_length.
  - cbn [parse_schedule]. rewrite Hback. cbn [mbind option_bind].
    rewrite parse_data_week by (by rewrite tolist_length).
    apply np_array_tolist; [done|lia].
Qed.
End Roundtrip.

(** * The theorems at the instances *)

(** ** Facts of the rational instance *)

Section RationalFacts.
Import Rational.

Lemma Q_fltb (x y : Q) : fltb x y = true <-> (x < y)%Q.
Proof.
  simpl. rewrite negb_true_iff, <- not_true_iff_false, Qle_bool_iff. split.
  - apply Qnot_le_lt.
  - apply Qlt_not_le.
Qed.

Lemma Q_fltb_false (x y : Q) : fltb x y = false <-> (y <= x)%Q.
Proof.
  rewrite <- not_true_iff_false, Q_fltb. split.
  - apply Qnot_lt_le.
  - apply Qle_not_lt.
Qed.

Lemma Q_weak_order (l : list (nat * Q)) : weak_order_on by_distance l.
Proof.
  split; unfold by_distance.
  - intros x y _ _. rewrite Q_fltb, Q_fltb_false. apply Qlt_le_weak.
  - intros x y z _ _ _. rewrite !Q_fltb_false. intros Hyx Hzy.
    by apply (Qle_trans _ y.2).
Qed.

Lemma Q_add_positive (x y : Q) :
  x = of_int 0 \/ fltb (of_int 0) x = true ->
  fltb (of_int 0) y = true -> fltb (of_int 0) (fadd x y) = true.
Proof.
  rewrite !Q_fltb. change (fadd x y) with (Qred (x + y)).
  rewrite Qred_correct. change (of_int (F := Q) 0) with 0%Q.
  intros [->|Hx] Hy.
  - by rewrite Qplus_0_l.
  - rewrite <- (Qplus_0_l 0). by apply Qplus_lt_le_compat; [|apply Qlt_le_weak].
Qed.
End RationalFacts.

(** ** Facts of the real instance *)

Section RealFacts.
Import RealModel.
Local Open Scope R_scope.

Lemma R_sign_laws : sign_laws R.
Proof.
  split; unfold fneg; simpl; intros.
  - ring.
  - ring.
  - field.
  - replace (0 - x) with (- x) by ring. rewrite sin_neg. ring.
  - ring.
  - ring.
Qed.

Lemma R_zero_laws : zero_laws R.
Proof.
  split; simpl; intros.
  - ring.
  - field.
  - apply sin_0.
  - ring.
  - ring.
  - ring.
  - apply sqrt_0.
  - ring.
  - apply sqrt_1.
  - unfold Ratan2. destruct (Rlt_dec 0 1) as [_|Hn]; [|lra].
    replace (0 / 1) with 0 by field. apply atan_0.
  - ring.
Qed.
End RealFacts.

(** ** Instances of the theorems and inputs that refute a reading *)

Section Instances.
Import Rational Examples.

(** C1 at the frame [two_sources]: the record at index 1, whose text is
    of two characters, is a target and has no schedule in the lookup. *)
Lemma partition_by_text_length_witness :
  two_sources !! 1 = Some place_T
  /\ (1, place_T) ∈ targets two_sources
  /\ source_schedules loads (sources two_sources) !! 1 = None.
Proof.
  split; [reflexivity|].
  destruct (partition_by_text_length loads two_sources 1 place_T eq_refl)
    as (_ & Ht & _ & Hnone).
  assert (Hin : (1, place_T) ∈ targets two_sources).
  { apply Ht. intros (s & Hs & Hlen). injection Hs as <-. vm_compute in Hlen. lia. }
  split; [exact Hin|exact (Hnone Hin)].
Defined.

(** C1 as it is stated fails: the record of [no_schedule] at index 0
    has a text of 43 characters that does not decode; it is a source
    and not a target. *)
Lemma source_without_schedule :
  ~ (forall (df : list (place Q)) i r,
        df !! i = Some r ->
        ((i, r) ∈ sources df <-> is_Some (parse_schedule loads (popular_times r)))
        /\ ((i, r) ∈ targets df <-> parse_schedule loads (popular_times r) = None)).
Proof.
  intros Hclaim.
  destruct (Hclaim no_schedule 0 place_S eq_refl) as [Hsrc _].
  assert (Hin : (0, place_S) ∈ sources no_schedule).
  { apply elem_of_sources. split; reflexivity. }
  apply Hsrc in Hin. vm_compute in Hin. by destruct Hin.
Qed.

(** C2: the decoder at a text of eight day entries returns a matrix of
    eight rows, which is no schedule. *)
Theorem eight_days_decoded :
  parse_schedule loads (Text eight_days)
  = Some (NumArr (Arr2 (replicate 8 (replicate 24 (SInt 1)))))
  /\ is_schedule (NumArr (Arr2 (replicate 8 (replicate 24 (SInt (F := Q) 1))))) = false.
Proof. split; by vm_compute. Qed.


(** C4 at the frame [no_schedule]: the target at index 1 has no
    contributing neighbour and keeps its record. *)
Lemma skipped_target_unmodified_witness :
  main loads dumps no_schedule = Saved no_schedule 0
  /\ no_schedule !! 1 = Some place_T.
Proof.
  assert (Hrun : main loads dumps no_schedule = Saved no_schedule 0) by (by vm_compute).
  split; [exact Hrun|].
  destruct (skipped_target_unmodified loads dumps no_schedule) as [_ Hsaved].
  destruct (Hsaved no_schedule 0 Hrun) as [_ Hskip].
  apply (Hskip 1 place_T np_zeros (of_int 0)).
  - apply elem_of_targets. split; reflexivity.
  - by vm_compute.
  - reflexivity.
Defined.

(** C4 as it is stated fails: in the run over [no_schedule] the one
    target is passed over, and what the run gives is the frame as it
    was with the counter at 0; the state of the loop after the target
    is the state before it, so nothing has counted the target. *)
Lemma skipped_target_uncounted :
  targets no_schedule = [(1, place_T)]
  /\ impute dumps (sources no_schedule)
            (source_schedules loads (sources no_schedule)) place_T = Some None
  /\ step dumps (sources no_schedule) (source_schedules loads (sources no_schedule))
          (no_schedule, 0) (1, place_T) = Some (no_schedule, 0)
  /\ main loads dumps no_schedule = Saved no_schedule 0.
Proof. repeat split; by vm_compute. Qed.



(** C6 at the frame [two_sources]: the run writes 15 for the target
    between the two sources and 19 for the other one, and leaves the
    sources as they were. *)
Lemma sources_read_only_witness :
  main loads dumps two_sources
  = Saved [place_A; set_popular_times (Text (flat_week 15)) place_T;
           place_B; set_popular_times (Text (flat_week 19)) place_U] 2
  /\ (forall i r, (i, r) ∈ sources two_sources ->
        [place_A; set_popular_times (Text (flat_week 15)) place_T;
         place_B; set_popular_times (Text (flat_week 19)) place_U] !! i = Some r).
Proof.
  assert (Hrun : main loads dumps two_sources
                 = Saved [place_A; set_popular_times (Text (flat_week 15)) place_T;
                          place_B; set_popular_times (Text (flat_week 19)) place_U] 2)
    by (by vm_compute).
  split; [exact Hrun|].
  exact (proj1 (proj2 (sources_read_only loads dumps _ _ _ Hrun))).
Defined.



(** C10 at a week written Sunday first: it decodes to the matrix with
    Monday first, and the text encoded from the matrix decodes to the
    same matrix. *)
Lemma decode_encode_decode_witness :
  parse_schedule loads (Text (dumps (JArr reversed_week)))
  = Some (NumArr (Arr2 (imap (fun i _ => replicate 24 (SInt (Z.of_nat i))) days_order)))
  /\ parse_schedule loads
       (Text (dumps (week_json (tolist
          (Arr2 (imap (fun i _ => replicate 24 (SInt (Z.of_nat i))) days_order))))))
     = Some (NumArr (Arr2 (imap (fun i _ => replicate 24 (SInt (Z.of_nat i))) days_order))).
Proof.
  assert (Hparse : parse_schedule loads (Text (dumps (JArr reversed_week)))
    = Some (NumArr (Arr2 (imap (fun i _ => replicate 24 (SInt (Z.of_nat i))) days_order))))
    by (by vm_compute).
  split; [exact Hparse|].
  apply (decode_encode_decode loads dumps (dumps (JArr reversed_week)) reversed_week).
  - by vm_compute.
  - reflexivity.
  - exact Hparse.
  - by vm_compute.
Defined.
End Instances.

Section RealInstance.
Import RealModel.
Local Open Scope R_scope.

End RealInstance.

(** * Further properties *)

(** ** The order of the days in a decoded schedule *)

Section SortFacts.
Context {A : Type} (lt : A -> A -> bool).

(** A list in ascending order that is a permutation of a list in strictly
    ascending order is that list. *)
Lemma sorted_perm_unique (a s : list A) :
  (forall x, lt x x = false) ->
  a ≡ₚ s -> ascending lt a -> StronglySorted (fun x y => lt x y = true) s -> a = s.
Proof.
  intros Hirr. revert a. induction s as [|x s IH]; intros a Hp Ha Hs.
  - by apply Permutation_nil_r in Hp.
  - destruct a as [|y a]; [by apply Permutation_nil_cons in Hp|].
    apply StronglySorted_inv in Hs as [Hs Hx].
    apply StronglySorted_inv in Ha as [Ha Hy].
    assert (Hyx : y = x).
    { assert (Hin : y ∈ x :: s) by (rewrite <- Hp; by left).
      apply elem_of_cons in Hin as [->|Hin]; [done|]. exfalso.
      rewrite Forall_forall in Hx. specialize (Hx y Hin).
      assert (Hin' : x ∈ y :: a) by (rewrite Hp; by left).
      apply elem_of_cons in Hin' as [->|Hin'].
      - by rewrite Hirr in Hx.
      - rewrite Forall_forall in Hy. by rewrite (Hy x Hin') in Hx. }
    subst y. f_equal. apply IH; [|done..].
    by apply Permutation_cons_inv in Hp.
Qed.

(** Sorting leaves a list of elements none of which is below another as
    it is. *)
Lemma sort_by_all_tied (l : list A) :
  (forall x y, x ∈ l -> y ∈ l -> lt x y = false) -> sort_by lt l = l.
Proof.
  induction l as [|x l IH]; intros Htied; [done|].
  change (sort_by lt (x :: l)) with (insert_by lt x (sort_by lt l)).
  rewrite IH by (intros y z Hy Hz; apply Htied; by right).
  destruct l as [|y l]; [done|]. simpl.
  rewrite Htied; [done|right; by left|by left].
Qed.
End SortFacts.

Section DecodeOrder.
Context {F : Type} `{PyFloat F}.
Variable loads : string -> option (json F).

Lemma mapM_default {A B} (f : A -> option B) (d : A -> B) (l : list A) :
  Forall (fun x => is_Some (f x)) l ->
  mapM f l = Some (map (fun x => default (d x) (f x)) l).
Proof.
  intros Hl. apply mapM_Some_2.
  induction Hl as [|x l [y Hy] Hl IH]; constructor; [|done]. by rewrite Hy.
Qed.

Lemma by_key_weak_order {A} (l : list (nat * A)) :
  weak_order_on (fun a b => a.1 <? b.1) l.
Proof.
  split.
  - intros x y _ _. rewrite Nat.ltb_lt, Nat.ltb_ge. lia.
  - intros x y z _ _ _. rewrite !Nat.ltb_ge. lia.
Qed.

(** The sort of [parse_schedule] on the keyed entries of a list [l] that
    is a permutation of the entries [es], when [es] has its keys in
    strictly ascending order. *)
Lemma sorted_data_perm (l es : list (json F)) :
  l ≡ₚ es ->
  Forall (fun x => is_Some (day_key x)) es ->
  StronglySorted (fun x y => (default 0 (day_key x) <? default 0 (day_key y)) = true) es ->
  (mapM (fun x => k ← day_key x; Some (k, x)) l
     ≫= fun keyed => Some (sort_by (fun a b => a.1 <? b.1) keyed).*2)
  = Some es.
Proof.
  intros Hp Hkeys Hsorted.
  rewrite (mapM_default _ (fun x => (0, x))).
  - cbn [mbind option_bind]. f_equal.
    set (key_of := fun x : json F =>
           default (0, x) (day_key x ≫= fun k => Some (k, x))).
    assert (Hes : (map key_of es).*2 = es).
    { apply list_eq. intros i. rewrite !list_lookup_fmap.
      destruct (es !! i) as [x|] eqn:Hx; [|done]. simpl.
      rewrite Forall_forall in Hkeys.
      destruct (Hkeys x) as [k Hk]; [by eapply list_elem_of_lookup_2|].
      unfold key_of. by rewrite Hk. }
    transitivity ((map key_of es).*2); [|done]. f_equal.
    apply (sorted_perm_unique (fun a b => a.1 <? b.1)).
    + intros x. apply Nat.ltb_irrefl.
    + rewrite sort_by_perm. by apply Permutation_map.
    + apply sort_by_ascending, by_key_weak_order.
    + clear -Hkeys Hsorted.
      induction Hsorted as [|x es Hs IH Hx]; [constructor|].
      apply Forall_cons in Hkeys as [[k Hk] Hkeys].
      simpl. constructor; [by apply IH|].
      rewrite Forall_forall in Hx, Hkeys. apply Forall_forall.
      intros y (x' & -> & Hx')%list_elem_of_fmap.
      specialize (Hx x' Hx'). destruct (Hkeys x' Hx') as [k' Hk'].
      unfold key_of. rewrite Hk, Hk' in *. done.
  - rewrite Hp. apply Forall_forall. intros x Hx.
    rewrite Forall_forall in Hkeys. destruct (Hkeys x Hx) as [k ->]. by eexists.
Qed.

(** X1: a list of the seven days of the week in any order, each entry
    with its name and its data, decodes to the array of the data with
    Monday first and Sunday last. *)
Theorem decode_monday_first (l es rows : list (json F)) :
  length rows = 7 ->
  Forall2 (fun e dr => getitem e "name" = Some (JStr dr.1)
                       /\ getitem e "data" = Some dr.2)
          es (zip days_order rows) ->
  l ≡ₚ es ->
  parse_data (JArr l) = np_array rows.
Proof.
  intros Hrows Hes Hp.
  destruct rows as [|r0 [|r1 [|r2 [|r3 [|r4 [|r5 [|r6 [|? ?]]]]]]]]; try done.
  assert (Hlen : length es = 7) by (by rewrite (Forall2_length _ _ _ Hes)).
  destruct es as [|e0 [|e1 [|e2 [|e3 [|e4 [|e5 [|e6 [|? ?]]]]]]]]; try done.
  cbn [zip zip_with days_order] in Hes.
  rewrite !Forall2_cons in Hes. cbn [fst snd] in Hes.
  destruct Hes as ([N0 D0] & [N1 D1] & [N2 D2] & [N3 D3] & [N4 D4] & [N5 D5] & [N6 D6] & _).
  assert (Hsort : mapM (fun x => k ← day_key x; Some (k, x)) l
            ≫= (fun keyed => Some (sort_by (fun a b => a.1 <? b.1) keyed).*2)
          = Some [e0; e1; e2; e3; e4; e5; e6]).
  { apply sorted_data_perm; [done| |].
    - repeat constructor; unfold day_key;
        rewrite ?N0, ?N1, ?N2, ?N3, ?N4, ?N5, ?N6; by eexists.
    - repeat constructor; unfold day_key;
        rewrite ?N0, ?N1, ?N2, ?N3, ?N4, ?N5, ?N6; reflexivity. }
  assert (Hl7 : (length l <? 7) = false) by (by rewrite (Permutation_length Hp)).
  unfold parse_data. rewrite Hl7.
  destruct (mapM _ l) as [keyed|]; cbn [mbind option_bind] in *; [|done].
  injection Hsort as Hsort. cbv zeta. rewrite Hsort.
  simpl. by rewrite D0, D1, D2, D3, D4, D5, D6.
Qed.
(** X2: a list of at least seven entries none of whose names is a day of
    [days_order] (a name in lower case, say) decodes to the array of the
    data in the order of the text: every entry has the sort key 0 and the
    sort is stable. *)
Theorem decode_unrecognised_names (l rows : list (json F)) :
  7 <= length l ->
  Forall2 (fun x row =>
             (exists n, getitem x "name" = Some n
                        /\ forall s, n = JStr s -> index s days_order = None)
             /\ getitem x "data" = Some row) l rows ->
  parse_data (JArr l) = np_array rows.
Proof.
  intros Hlen Hl.
  assert (Hl7 : (length l <? 7) = false) by (apply Nat.ltb_ge; lia).
  unfold parse_data. rewrite Hl7.
  assert (Hkeyed : mapM (fun x => k ← day_key x; Some (k, x)) l
                   = Some (map (fun x => (0, x)) l)).
  { apply mapM_Some_2. clear -Hl.
    induction Hl as [|x row l rows [(n & Hn & Hun) _] _ IH]; constructor; [|done].
    unfold day_key. rewrite Hn. cbn [mbind option_bind]. destruct n; try done.
    by rewrite (Hun s eq_refl). }
  rewrite Hkeyed. cbn [mbind option_bind]. cbv zeta.
  rewrite sort_by_all_tied.
  - assert (Hsnd : (map (fun x : json F => (0, x)) l).*2 = l).
    { apply list_eq. intros i. rewrite !list_lookup_fmap. by destruct (l !! i). }
    rewrite Hsnd.
    assert (Hdata : mapM (fun day => getitem day "data") l = Some rows).
    { apply mapM_Some_2. clear -Hl.
      induction Hl as [|x row l rows [_ Hd] _ IH]; by constructor. }
    by rewrite Hdata.
  - intros x y (x' & -> & _)%list_elem_of_fmap (y' & -> & _)%list_elem_of_fmap. done.
Qed.

(** X3: when one entry of the list is no dict, or a dict without the key
    name or without the key data, the decoder gives no schedule. *)
Theorem decode_missing_key (s : string) (l : list (json F)) (x : json F) :
  loads s = Some (JArr l) ->
  x ∈ l ->
  getitem x "name" = None \/ getitem x "data" = None ->
  parse_schedule loads (Text s) = None.
Proof.
  intros Hs Hx Hmiss. simpl. rewrite Hs. cbn [mbind option_bind].
  unfold parse_data. destruct (length l <? 7); [done|].
  destruct (mapM _ l) as [keyed|] eqn:Hk; cbn [mbind option_bind]; [|done].
  cbv zeta.
  apply list_elem_of_lookup_1 in Hx as [i Hi].
  apply mapM_Some_1 in Hk.
  destruct (Forall2_lookup_l _ _ _ i x Hk Hi) as (kx & Hkx & Hf).
  unfold day_key in Hf.
  destruct (getitem x "name") as [n|] eqn:Hn; [|done].
  destruct Hmiss as [?|Hd]; [done|]. simpl in Hf. injection Hf as <-.
  assert (Hnone : mapM (fun day => getitem day "data")
                    (sort_by (fun a b => a.1 <? b.1) keyed).*2 = None).
  { apply mapM_None_2, Exists_exists. exists x. split; [|done].
    apply list_elem_of_fmap. eexists. split; [|rewrite sort_by_perm;
      by eapply list_elem_of_lookup_2]. done. }
  by rewrite Hnone.
Qed.

(** X4: an array that the decoder returns comes from a text that is a
    list of at least seven entries; it has one row for each entry of the
    list, its elements have one dtype and its rows one length. *)
Theorem decoded_shape (c : cell) (a : ndarray F) :
  parse_schedule loads c = Some (NumArr a) ->
  exists s l, c = Text s /\ loads s = Some (JArr l)
              /\ 7 <= length l /\ first_axis a = length l /\ canonical a.
Proof.
  destruct c as [|s]; simpl; [done|].
  destruct (loads s) as [d|] eqn:Hs; simpl; [|done].
  destruct d as [| | | | |l|]; try done.
  intros Hp. exists s, l.
  destruct (parse_data_canonical l a Hp) as [Hc Hn].
  repeat split; try done.
  unfold parse_data in Hp. destruct (length l <? 7) eqn:Hl; [done|].
  by apply Nat.ltb_ge in Hl.
Qed.
End DecodeOrder.

(** ** The bounds of the encoder *)

Section EncodeBounds.
Context {F : Type} `{PyFloat F}.
Variable dumps : json F -> string.

(** X5: the encoder raises on an array of fewer than seven rows, and of
    an array of seven rows or more it writes the first seven, one for
    each day from Monday to Sunday; the rows after the seventh are left
    out. *)
Theorem encode_first_seven_rows (a : ndarray F) :
  (first_axis a < 7 -> format_schedule_back_to_json dumps a = None)
  /\ (7 <= first_axis a ->
      format_schedule_back_to_json dumps a
      = Some (dumps (week_json (take 7 (tolist a))))).
Proof.
  unfold format_schedule_back_to_json. split; intros Hn.
  - destruct a as [v|rows]; simpl in Hn.
    + do 7 (destruct v as [|? v]; [done|]). simpl in Hn. lia.
    + do 7 (destruct rows as [|? rows]; [done|]). simpl in Hn. lia.
  - destruct a as [v|rows]; simpl in Hn.
    + do 7 (destruct v as [|? v]; [simpl in Hn; lia|]). done.
    + do 7 (destruct rows as [|? rows]; [simpl in Hn; lia|]). done.
Qed.
End EncodeBounds.

(** ** The schedule that the loop writes *)

Section WrittenText.
Context {F : Type} `{PyFloat F} `{PyMath F}.
Variable loads : string -> option (json F).
Variable dumps : json F -> string.

Lemma scaled_shape (a : ndarray F) (w : F) x :
  scaled a w = Some x -> seven_by_24 x.
Proof.
  intros Hx. split; [by apply (scaled_rows a w)|].
  destruct a as [v|rows]; simpl in Hx.
  - destruct (broadcast_axis 24 _) as [r|] eqn:Hr; simpl in Hx; [|done].
    injection Hx as <-. apply broadcast_axis_length in Hr.
    repeat constructor; done.
  - destruct (mapM _ rows) as [rs|] eqn:Hrs; simpl in Hx; [|done].
    assert (Hall : Forall (fun r : list F => length r = 24) rs).
    { apply mapM_Some_1 in Hrs. clear -Hrs.
      induction Hrs as [|r r' rows rs Hr _ IH]; constructor; [|done].
      by apply broadcast_axis_length in Hr. }
    unfold broadcast_axis in Hx. destruct (length rs =? 7); [by injection Hx as <-|].
    destruct rs as [|r [|? ?]]; try done. injection Hx as <-.
    apply Forall_cons in Hall as [Hr _]. repeat constructor; done.
Qed.

Lemma mat_add_shape (acc x : list (list F)) :
  seven_by_24 acc -> seven_by_24 x -> seven_by_24 (mat_add acc x).
Proof.
  intros [Ha Har] [Hx Hxr]. unfold mat_add. split.
  - rewrite length_zip_with. lia.
  - clear Ha Hx. revert x Hxr. induction Har as [|r acc Hr _ IH]; intros x Hxr; [constructor|].
    destruct Hxr as [|r' x Hr' Hxr]; [constructor|]. simpl.
    constructor; [|by apply IH]. rewrite length_zip_with. lia.
Qed.

Lemma accumulate_shape (scheds : gmap nat (nparray F)) nearest ws tw ws' tw' :
  accumulate scheds nearest ws tw = Some (ws', tw') -> seven_by_24 ws -> seven_by_24 ws'.
Proof.
  revert ws tw. induction nearest as [|[s_idx dist] rest IH]; intros ws tw; simpl.
  - by intros [= <- <-].
  - destruct (scheds !! s_idx) as [[sched|]|]; [|done|by apply IH].
    destruct (scaled sched (weight dist)) as [x|] eqn:Hx; simpl; [|done].
    intros Hacc Hws. apply (IH _ _ Hacc), mat_add_shape; [done|].
    by apply (scaled_shape sched (weight dist)).
Qed.

Lemma np_zeros_shape : seven_by_24 (np_zeros (F := F)).
Proof. split; [done|]. repeat constructor. Qed.

Lemma schedule_text_week (m : list (list Z)) :
  schedule_text dumps m = dumps (week_json (int_rows m)).
Proof.
  unfold schedule_text, week_json, int_rows. do 2 f_equal.
  by rewrite zip_with_fmap_r.
Qed.

(** X6: whatever the shapes of the schedules of the sources, the text
    written for a target is the text of a matrix of 7 rows of 24
    integers, the seven days named from Monday to Sunday. *)
Theorem imputed_text_shape (srcs : list (nat * place F))
    (scheds : gmap nat (nparray F)) (r : place F) (text : string) :
  impute dumps srcs scheds r = Some (Some text) ->
  exists m : list (list Z),
    seven_by_24 m /\ text = dumps (week_json (int_rows m)).
Proof.
  unfold impute.
  destruct (accumulate scheds (nearest_k srcs r) np_zeros (of_int 0))
    as [[ws tw]|] eqn:Hacc; cbn [mbind option_bind]; [|done].
  destruct (fltb (of_int 0) tw); [|done]. intros Htext.
  pose proof (accumulate_shape _ _ _ _ _ _ Hacc np_zeros_shape) as [Hn Hr].
  exists (map (map (fun x => ftrunc (fdiv x tw))) ws). split; [split|].
  - by rewrite length_map.
  - apply Forall_forall. intros r' (r0 & -> & Hr0)%list_elem_of_fmap.
    rewrite length_map. rewrite Forall_forall in Hr. by apply Hr.
  - destruct ws as [|w0 [|w1 [|w2 [|w3 [|w4 [|w5 [|w6 [|? ?]]]]]]]]; try done.
    revert Htext. unfold format_schedule_back_to_json, mat_div_trunc. simpl.
    rewrite !map_map. by intros [= <-].
Qed.

Lemma uniform_ints (zs : list Z) : uniform (map (SInt (F := F)) zs).
Proof.
  unfold uniform. destruct zs as [|z zs]; [constructor|].
  assert (Hdt : result_type (map (SInt (F := F)) (z :: zs)) = DInt).
  { unfold result_type.
    rewrite (existsb_map_const is_float SInt false) by done.
    by rewrite (existsb_map_const is_int SInt true). }
  rewrite Hdt. apply Forall_forall. by intros s (z' & -> & _)%list_elem_of_fmap.
Qed.

(** X7: a matrix of integers of seven rows of one length, written by the
    encoder and read back by [json.loads] as it was written, decodes to
    the same matrix; with rows of 24 values the decoded array is a
    schedule. *)
Theorem encoded_matrix_decodes (m : list (list Z)) (c : nat) :
  length m = 7 ->
  Forall (fun r => length r = c) m ->
  loads (dumps (week_json (int_rows m))) = Some (week_json (int_rows m)) ->
  format_schedule_back_to_json dumps (Arr2 (map (map SInt) m))
  = Some (dumps (week_json (int_rows m)))
  /\ parse_schedule loads (Text (dumps (week_json (int_rows m))))
     = Some (NumArr (Arr2 (map (map SInt) m)))
  /\ (c = 24 -> is_schedule (NumArr (Arr2 (map (map (SInt (F := F))) m))) = true).
Proof.
  intros Hn Hc Hback.
  assert (Hrows : tolist (Arr2 (map (map (SInt (F := F))) m)) = int_rows m).
  { unfold int_rows. simpl. rewrite map_map. apply map_ext. intros r.
    by rewrite map_map. }
  split; [|split].
  - unfold format_schedule_back_to_json.
    rewrite schedule_json_week by (simpl; by rewrite length_map).
    by rewrite Hrows.
  - cbn [parse_schedule]. rewrite Hback. cbn [mbind option_bind].
    rewrite parse_data_week by (unfold int_rows; by rewrite length_map).
    rewrite <- Hrows. apply np_array_tolist.
    + simpl. split.
      * replace (concat (map (map (SInt (F := F))) m)) with (map (SInt (F := F)) (concat m)).
        -- apply uniform_ints.
        -- clear. induction m as [|r m IH]; [done|]. simpl. by rewrite map_app, IH.
      * exists c. apply Forall_forall. intros r' (r & -> & Hr)%list_elem_of_fmap.
        rewrite length_map. rewrite Forall_forall in Hc. by apply Hc.
    + simpl. rewrite length_map. lia.
  - intros ->. simpl. rewrite length_map, Hn. simpl.
    apply forallb_forall. intros r' Hr'. apply Nat.eqb_eq.
    apply list_elem_of_In in Hr'. apply list_elem_of_fmap in Hr' as (r & -> & Hr).
    rewrite length_map. rewrite Forall_forall in Hc. by apply Hc.
Qed.
End WrittenText.

(** ** The neighbours and the outcome of a run *)

Section RunFacts.
Context {F : Type} `{PyFloat F} `{PyMath F}.
Variable loads : string -> option (json F).
Variable dumps : json F -> string.

(** X8: whatever the order of the floats, the neighbours selected for a
    place are at most three, no source is selected twice, each one is a
    source of the frame with its distance to the place, and none is a
    target. *)
Theorem nearest_are_sources (df : list (place F)) (t : place F) :
  length (nearest_k (sources df) t) <= NEIGHBORS_TO_CONSIDER
  /\ NoDup (nearest_k (sources df) t).*1
  /\ forall c, c ∈ nearest_k (sources df) t ->
       (exists r, (c.1, r) ∈ sources df
                  /\ c.2 = haversine (latitude t) (longitude t)
                                     (latitude r) (longitude r))
       /\ forall r', (c.1, r') ∉ targets df.
Proof.
  unfold nearest_k, select. split; [|split].
  - rewrite length_take. lia.
  - apply (sublist_NoDup _ (sort_by by_distance (distances (sources df) t)).*1).
    + rewrite sort_by_perm. unfold distances.
      replace (map _ (sources df)).*1 with (sources df).*1; [apply NoDup_sources|].
      apply list_eq. intros i. rewrite !list_lookup_fmap.
      by destruct (sources df !! i).
    + apply fmap_sublist, sublist_take.
  - intros c Hc. apply subseteq_take in Hc. rewrite sort_by_perm in Hc.
    unfold distances in Hc. apply list_elem_of_fmap in Hc as ([i r] & -> & Hin).
    simpl. split; [by exists r|].
    intros r' Hr'. apply (target_not_source df i r Hin).
    by apply (list_elem_of_fmap_2 fst _ (i, r')).
Qed.

(** X9: the sources and the targets share out the frame: every index of
    the frame is the index of one source or of one target, and the two
    numbers that the script prints add up to the number of the places. *)
Theorem partition_counts (df : list (place F)) :
  (sources df).*1 ++ (targets df).*1 ≡ₚ seq 0 (length df)
  /\ length (sources df) + length (targets df) = length df.
Proof.
  assert (Hp : sources df ++ targets df ≡ₚ imap pair df).
  { unfold sources, targets.
    assert (Heq : filter (fun ir : nat * place F => has_data (popular_times ir.2) = false)
                         (imap pair df)
                  = filter (fun ir : nat * place F => ~ has_data (popular_times ir.2) = true)
                           (imap pair df)).
    { apply list_filter_iff. intros ir. by destruct (has_data (popular_times ir.2)). }
    rewrite Heq. apply filter_app_complement. }
  split.
  - by rewrite <- fmap_app, Hp, imap_pair_fst.
  - rewrite <- length_app, Hp, <- (length_fmap fst), imap_pair_fst. apply length_seq.
Qed.

Lemma broadcast_axis_is_Some {A} n (l : list A) :
  is_Some (broadcast_axis n l) <-> (length l =? n) || (length l =? 1) = true.
Proof.
  unfold broadcast_axis. destruct (length l =? n); [by split; eauto|].
  destruct l as [|x [|? ?]]; simpl; split; try done; by intros [? ?].
Qed.

Lemma scaled_is_Some (a : ndarray F) (w : F) :
  is_Some (scaled a w) <-> broadcastable (NumArr a) = true.
Proof.
  destruct a as [v|rows]; simpl.
  - rewrite <- (length_map (fun s => fmul (to_float s) w) v), <- broadcast_axis_is_Some.
    destruct (broadcast_axis 24 _); simpl; split; try done; by intros [? ?].
  - rewrite andb_true_iff.
    destruct (mapM _ rows) as [rs|] eqn:Hrs; simpl.
    + rewrite broadcast_axis_is_Some, <- (length_mapM _ _ _ Hrs). split; [|tauto].
      intros Hn. split; [done|]. apply forallb_forall. intros r Hr.
      apply list_elem_of_In in Hr.
      assert (Hall : is_Some (mapM (fun r => broadcast_axis 24
                        (map (fun s => fmul (to_float s) w) r)) rows)) by (by rewrite Hrs).
      rewrite mapM_is_Some, Forall_forall in Hall. specialize (Hall r Hr). simpl in Hall.
      apply broadcast_axis_is_Some in Hall. by rewrite length_map in Hall.
    + split; [by intros [? ?]|]. intros [_ Hall]. exfalso.
      apply mapM_None_1, Exists_exists in Hrs as (r & Hr & Hnone).
      rewrite forallb_forall in Hall. specialize (Hall r).
      rewrite <- (length_map (fun s => fmul (to_float s) w) r) in Hall.
      rewrite <- broadcast_axis_is_Some, Hnone in Hall.
      destruct Hall as [? ?]; [by apply list_elem_of_In|done].
Qed.

(** The loop over the neighbours raises exactly when it meets a schedule
    that does not broadcast. *)
Lemma accumulate_None (scheds : gmap nat (nparray F)) nearest ws tw :
  accumulate scheds nearest ws tw = None
  <-> exists c a, c ∈ nearest /\ scheds !! c.1 = Some a /\ broadcastable a = false.
Proof.
  revert ws tw. induction nearest as [|[s_idx dist] rest IH]; intros ws tw; simpl.
  - split; [done|]. intros (c & a & Hc & _). by apply elem_of_nil in Hc.
  - destruct (scheds !! s_idx) as [[sched|]|] eqn:Hs.
    + destruct (scaled sched (weight dist)) as [x|] eqn:Hx; simpl.
      * rewrite IH. split.
        -- intros (c & a & Hc & Ha). exists c, a. split; [by right|done].
        -- intros (c & a & Hc & Ha & Hb). exists c, a.
           apply elem_of_cons in Hc as [->|Hc]; [|done]. simpl in Ha.
           rewrite Hs in Ha. injection Ha as <-.
           assert (His : is_Some (scaled sched (weight dist))) by (by rewrite Hx).
           apply scaled_is_Some in His. congruence.
      * split; [|done]. intros _. exists (s_idx, dist), (NumArr sched).
        split; [by left|]. split; [done|].
        destruct (broadcastable (NumArr sched)) eqn:Hb; [|done].
        apply (scaled_is_Some sched (weight dist)) in Hb. rewrite Hx in Hb. by destruct Hb.
    + split; [|done]. intros _. exists (s_idx, dist), ObjArr.
      split; [by left|]. by split.
    + rewrite IH. split.
      * intros (c & a & Hc & Ha). exists c, a. split; [by right|done].
      * intros (c & a & Hc & Ha & Hb). exists c, a.
        apply elem_of_cons in Hc as [->|Hc]; [|done]. simpl in Ha. congruence.
Qed.

Lemma impute_None (srcs : list (nat * place F)) (scheds : gmap nat (nparray F))
    (r : place F) :
  impute dumps srcs scheds r = None
  <-> accumulate scheds (nearest_k srcs r) np_zeros (of_int 0) = None.
Proof.
  unfold impute.
  destruct (accumulate scheds (nearest_k srcs r) np_zeros (of_int 0))
    as [[ws tw]|] eqn:Hacc; cbn [mbind option_bind]; [|done].
  split; [|done]. destruct (fltb (of_int 0) tw); [|done].
  destruct (format_rows dumps ws tw) as [text ->]; [|done].
  by apply (accumulate_rows _ _ _ _ _ _ Hacc).
Qed.

Lemma loop_None (srcs : list (nat * place F)) (scheds : gmap nat (nparray F))
    tgts (st : list (place F) * nat) :
  loop dumps srcs scheds tgts st = None
  <-> exists it, it ∈ tgts /\ impute dumps srcs scheds it.2 = None.
Proof.
  revert st. induction tgts as [|it tgts IH]; intros st; simpl.
  - split; [done|]. intros (it & Hit & _). by apply elem_of_nil in Hit.
  - rewrite step_impute.
    destruct (impute dumps srcs scheds it.2) as [[text|]|] eqn:Him; simpl.
    + rewrite IH. split.
      * intros (it' & Hit' & Hn). exists it'. split; [by right|done].
      * intros (it' & Hit' & Hn). exists it'.
        apply elem_of_cons in Hit' as [->|Hit']; [congruence|done].
    + rewrite IH. split.
      * intros (it' & Hit' & Hn). exists it'. split; [by right|done].
      * intros (it' & Hit' & Hn). exists it'.
        apply elem_of_cons in Hit' as [->|Hit']; [congruence|done].
    + split; [|done]. intros _. exists it. split; [by left|done].
Qed.


Lemma accumulate_empty (nearest : list (nat * F)) (ws : list (list F)) (tw : F) :
  accumulate ∅ nearest ws tw = Some (ws, tw).
Proof.
  induction nearest as [|[s_idx dist] rest IH]; simpl; [done|].
  by rewrite lookup_empty.
Qed.

End RunFacts.

(** ** The export of the heat map *)

Section HeatmapFacts.
Context {F : Type} `{PyFloat F}.
Variable loads : string -> option (json F).
Variable dumps : json F -> string.
Variable pyfloat : string -> option F.
Variable float_truth : F -> bool.

Lemma export_rows_kept rows (acc : list (heat_entry F)) :
  Forall (fun row => export_row loads pyfloat float_truth row <> Uncaught) rows ->
  export_rows loads pyfloat float_truth rows acc
  = Some (acc ++ omap (kept_entry loads pyfloat float_truth) rows).
Proof.
  intros Hrows. revert acc.
  induction Hrows as [|row rows Hrow _ IH]; intros acc; simpl.
  - by rewrite app_nil_r.
  - unfold kept_entry at 1.
    destruct (export_row loads pyfloat float_truth row) as [e| |]; [| |done].
    + rewrite IH. by rewrite <- app_assoc.
    + apply IH.
Qed.

Lemma export_rows_uncaught rows (acc : list (heat_entry F)) :
  Exists (fun row => export_row loads pyfloat float_truth row = Uncaught) rows ->
  export_rows loads pyfloat float_truth rows acc = None.
Proof.
  intros Hrows. revert acc.
  induction Hrows as [row rows Hrow|row rows _ IH]; intros acc; simpl.
  - by rewrite Hrow.
  - by destruct (export_row loads pyfloat float_truth row).
Qed.

(** X12: when no row raises an exception that the loop does not catch,
    the data set is the list of the entries of the rows that are kept, in
    the order of the rows; one row that raises such an exception ends the
    script and nothing is exported. *)
Theorem heatmap_dataset_rows (rows : list (list (string * option string))) :
  (Forall (fun row => export_row loads pyfloat float_truth row <> Uncaught) rows ->
   heatmap_dataset loads pyfloat float_truth rows
   = Some (omap (kept_entry loads pyfloat float_truth) rows))
  /\ (Exists (fun row => export_row loads pyfloat float_truth row = Uncaught) rows ->
      heatmap_dataset loads pyfloat float_truth rows = None).
Proof.
  split; intros Hrows.
  - unfold heatmap_dataset. by rewrite export_rows_kept.
  - by apply export_rows_uncaught.
Qed.

(** X13: a text that the decoder of the imputation reads as an array of
    more than seven rows, and which the imputation therefore uses as the
    schedule of a source, is left out of the heat map: the export keeps a
    list of exactly seven entries only. *)
Theorem export_needs_seven (row : list (string * option string)) (s : string)
    (a : ndarray F) :
  assoc "popular_times" row = Some (Some s) ->
  parse_schedule loads (Text s) = Some (NumArr a) ->
  first_axis a <> 7 ->
  export_row loads pyfloat float_truth row = Dropped.
Proof.
  intros Hrow Hparse Hn.
  apply decoded_shape in Hparse as (s' & l & [= <-] & Hs & H7 & Hlen & _).
  unfold export_row. rewrite Hrow. simpl. rewrite Hs. simpl.
  destruct l as [|x l]; [done|]. rewrite bool_decide_eq_false_2 by done. simpl.
  rewrite Hlen in Hn. simpl in Hn.
  destruct (length l =? 6) eqn:Hl; [|done].
  apply Nat.eqb_eq in Hl. lia.
Qed.

(** X14: the export after the encoder.  A row whose schedule is the text
    that the encoder wrote for an array, read back by [json.loads] as it
    was written, and whose coordinates are floats, is kept with the
    first seven rows of the array as its schedule, Monday first. *)
Theorem export_encoded (row : list (string * option string)) (a : ndarray F)
    (text sla slo : string) (x y : F) :
  assoc "popular_times" row = Some (Some text) ->
  assoc "latitude" row = Some (Some sla) ->
  assoc "longitude" row = Some (Some slo) ->
  pyfloat sla = Some x -> pyfloat slo = Some y ->
  format_schedule_back_to_json dumps a = Some text ->
  loads text = Some (week_json (take 7 (tolist a))) ->
  export_row loads pyfloat float_truth row
  = Kept (HeatEntry x y (take 7 (tolist a))).
Proof.
  intros Hpt Hla Hlo Hx Hy Hfmt Hloads.
  assert (H7 : 7 <= first_axis a).
  { destruct (encode_first_seven_rows dumps a) as [Hlt _].
    destruct (decide (first_axis a < 7)) as [Hn|Hn]; [|lia].
    rewrite (Hlt Hn) in Hfmt. done. }
  assert (Hlen : length (take 7 (tolist a)) = 7).
  { rewrite length_take, tolist_length. lia. }
  unfold export_row, float_field. rewrite Hpt, Hla, Hlo. simpl.
  rewrite Hloads, Hx, Hy.
  destruct (take 7 (tolist a)) as [|r0 [|r1 [|r2 [|r3 [|r4 [|r5 [|r6 [|? ?]]]]]]]];
    try done.
Qed.

(** X15: where the decoder fails soft the export does not.  For a list
    of seven entries one of which has no data, in a row whose coordinates
    are floats, the decoder gives no schedule, while the export raises an
    exception that it does not catch, and the export of any file with
    this row writes nothing. *)
Theorem export_uncaught_entry (row : list (string * option string))
    (s sla slo : string) (l : list (json F)) (e : json F) (x y : F) :
  assoc "popular_times" row = Some (Some s) ->
  assoc "latitude" row = Some (Some sla) ->
  assoc "longitude" row = Some (Some slo) ->
  pyfloat sla = Some x -> pyfloat slo = Some y ->
  loads s = Some (JArr l) -> length l = 7 ->
  e ∈ l -> getitem e "data" = None ->
  parse_schedule loads (Text s) = None
  /\ export_row loads pyfloat float_truth row = Uncaught
  /\ forall rows, row ∈ rows -> heatmap_dataset loads pyfloat float_truth rows = None.
Proof.
  intros Hpt Hla Hlo Hx Hy Hs Hlen He Hdata.
  assert (Hrow : export_row loads pyfloat float_truth row = Uncaught).
  { assert (Hd : day_data (JArr l) = None).
    { apply mapM_None_2, Exists_exists. by exists e. }
    assert (Ht : truthy float_truth (JArr l) = true) by (by destruct l).
    assert (Hn : pylen (JArr l) = Some 7) by (simpl; by rewrite Hlen).
    unfold export_row, float_field. rewrite Hpt, Hla, Hlo. cbn [from_option].
    unfold Datatypes.id. by rewrite Hs, Ht, Hn, Hx, Hy, Hd. }
  split; [|split].
  - by apply (decode_missing_key loads s l e); [done..|right].
  - done.
  - intros rows Hin. apply export_rows_uncaught, Exists_exists. by exists row.
Qed.
(** X16: an entry that the export keeps comes from a text that is a list
    of exactly seven entries; its schedule has the data of the seven
    entries in the order of the text (the export does not sort the days),
    and its coordinates are the floats of the two fields of the row. *)
Theorem kept_entry_shape (row : list (string * option string)) (e : heat_entry F) :
  export_row loads pyfloat float_truth row = Kept e ->
  exists (s sla slo : string) (l : list (json F)),
    default (Some "[]") (assoc "popular_times" row) = Some s
    /\ loads s = Some (JArr l) /\ length l = 7
    /\ Forall2 (fun x d => getitem x "data" = Some d) l (schedule e)
    /\ assoc "latitude" row = Some (Some sla) /\ pyfloat sla = Some (lat e)
    /\ assoc "longitude" row = Some (Some slo) /\ pyfloat slo = Some (lon e).
Proof.
  unfold export_row, float_field.
  destruct (default (Some "[]") (assoc "popular_times" row)) as [s|]; [|done].
  destruct (loads s) as [v|] eqn:Hs; [|done].
  destruct (truthy float_truth v); [|done].
  destruct (pylen v) as [n|] eqn:Hn; [|done].
  destruct (n =? 7) eqn:H7; [|done]. apply Nat.eqb_eq in H7. subst n.
  destruct (assoc "latitude" row) as [[sla|]|]; try done.
  destruct (pyfloat sla) as [x|] eqn:Hx; [|done].
  destruct (assoc "longitude" row) as [[slo|]|]; try done.
  destruct (pyfloat slo) as [y|] eqn:Hy; [|done].
  destruct (day_data v) as [sched|] eqn:Hd; [|done].
  intros [= <-]. destruct v as [| | | | |l|]; try done.
  exists s, sla, slo, l. simpl in *. injection Hn as Hn.
  repeat split; try done. by apply mapM_Some_1.
Qed.
End HeatmapFacts.

(** ** The further properties at the rational instance *)

Section MoreInstances.
Import Rational Examples MoreExamples.

(** X1 at a week written Sunday first. *)
Lemma decode_monday_first_witness :
  parse_data (JArr reversed_week) = np_array ordered_rows.
Proof.
  apply (decode_monday_first reversed_week ordered_week ordered_rows).
  - reflexivity.
  - repeat (constructor; [split; reflexivity|]). constructor.
  - unfold reversed_week, ordered_week. symmetry. apply Permutation_rev.
Defined.

(** X2 at a week named in lower case and written Sunday first: the rows
    stay in the order of the text, Sunday first. *)
Lemma decode_unrecognised_names_witness :
  parse_data (JArr lower_case_week) = np_array ordered_rows.
Proof.
  apply (decode_unrecognised_names lower_case_week ordered_rows).
  - vm_compute. lia.
  - repeat (constructor;
            [split; [eexists; split; [reflexivity|];
                     intros s Hs; injection Hs as <-; reflexivity
                    |reflexivity]|]).
    constructor.
Defined.

(** X3 at a week whose Sunday has no data. *)
Lemma decode_missing_key_witness :
  parse_schedule loads (Text (dumps (JArr week_without_sunday))) = None.
Proof.
  apply (decode_missing_key loads _ week_without_sunday (JObj [("name", JStr "Sunday")])).
  - by vm_compute.
  - apply list_elem_of_In. vm_compute. tauto.
  - right. reflexivity.
Defined.

(** X4 at the week with 10 at every hour. *)
Lemma decoded_shape_witness :
  exists s l, Text (flat_week 10) = Text s /\ loads s = Some (JArr l)
              /\ 7 <= length l
              /\ first_axis (Arr2 (replicate 7 (replicate 24 (SInt (F := Q) 10)))) = length l
              /\ canonical (Arr2 (replicate 7 (replicate 24 (SInt (F := Q) 10)))).
Proof.
  apply (decoded_shape loads). by vm_compute.
Defined.

(** X6 at the frame [two_sources]: the text written for the target at
    index 3. *)
Lemma imputed_text_shape_witness :
  exists m : list (list Z),
    seven_by_24 m /\ flat_week 19 = dumps (week_json (int_rows m)).
Proof.
  apply (imputed_text_shape dumps (sources two_sources)
           (source_schedules loads (sources two_sources)) place_U).
  by vm_compute.
Defined.

(** X7 at the matrix with 19 at every hour. *)
Lemma encoded_matrix_decodes_witness :
  parse_schedule loads (Text (dumps (week_json (int_rows (flat_matrix 19)))))
  = Some (NumArr (Arr2 (map (map SInt) (flat_matrix 19)))).
Proof.
  apply (encoded_matrix_decodes loads dumps (flat_matrix 19) 24).
  - reflexivity.
  - repeat constructor.
  - by vm_compute.
Defined.


(** X13 at the text of eight day entries. *)
Lemma export_needs_seven_witness :
  export_row loads float_of_text Q_truth (csv_row "0" "0" (Text eight_days)) = Dropped.
Proof.
  apply (export_needs_seven loads float_of_text Q_truth _ eight_days
           (Arr2 (replicate 8 (replicate 24 (SInt 1))))).
  - reflexivity.
  - by vm_compute.
  - by vm_compute.
Defined.

(** X14 at the schedule written for the target at index 3 of
    [two_sources]. *)
Lemma export_encoded_witness :
  export_row loads float_of_text Q_truth (csv_row "0" "0.03" (Text (flat_week 19)))
  = Kept (HeatEntry 0%Q (3 # 100)%Q
            (take 7 (tolist (Arr2 (map (map SInt) (flat_matrix 19)))))).
Proof.
  apply (export_encoded loads dumps float_of_text Q_truth _ _ (flat_week 19) "0" "0.03");
    by vm_compute.
Defined.

(** X15 at a week whose Sunday has no data. *)
Lemma export_uncaught_entry_witness :
  parse_schedule loads (Text (dumps (JArr week_without_sunday))) = None
  /\ export_row loads float_of_text Q_truth
       (csv_row "0" "0" (Text (dumps (JArr week_without_sunday)))) = Uncaught.
Proof.
  assert (Hs : loads (dumps (JArr week_without_sunday)) = Some (JArr week_without_sunday))
    by (by vm_compute).
  assert (Hin : JObj [("name", JStr "Sunday")] ∈ week_without_sunday).
  { apply list_elem_of_In. vm_compute. tauto. }
  destruct (export_uncaught_entry loads float_of_text Q_truth
              (csv_row "0" "0" (Text (dumps (JArr week_without_sunday))))
              (dumps (JArr week_without_sunday)) "0" "0" week_without_sunday
              (JObj [("name", JStr "Sunday")]) 0%Q 0%Q
              eq_refl eq_refl eq_refl eq_refl eq_refl Hs eq_refl Hin eq_refl)
    as (Hparse & Hrow & _).
  split; [exact Hparse|exact Hrow].
Defined.
(** X16 at a week written Sunday first: the schedule of the entry has
    seven rows. *)
Lemma kept_entry_shape_witness :
  exists (s sla slo : string) (l : list (json Q)),
    default (Some "[]") (assoc "popular_times"
                           (csv_row "0" "0" (Text (dumps (JArr reversed_week))))) = Some s
    /\ loads s = Some (JArr l) /\ length l = 7
    /\ Forall2 (fun x d => getitem x "data" = Some d) l (rev ordered_rows)
    /\ assoc "latitude" (csv_row "0" "0" (Text (dumps (JArr reversed_week))))
       = Some (Some sla)
    /\ float_of_text sla = Some 0%Q
    /\ assoc "longitude" (csv_row "0" "0" (Text (dumps (JArr reversed_week))))
       = Some (Some slo)
    /\ float_of_text slo = Some 0%Q.
Proof.
  apply (kept_entry_shape loads float_of_text Q_truth
           (csv_row "0" "0" (Text (dumps (JArr reversed_week))))
           (HeatEntry 0%Q 0%Q (rev ordered_rows))).
  by vm_compute.
Defined.
End MoreInstances.
